(** * AnyConn: the HTTP connector ([src/connectors/http.ts])

    A shallow embedding of the connector and the properties of its
    request construction and response decoding.

    Conventions of the embedding.
    - A JavaScript string is a Rocq [string].  Keys, field values and bodies
      are read as the UTF-8 bytes of the text, so that [Buffer.from(s)] is the
      byte list of [s]; a header value handed to [getContentType] is read one
      character per byte (Node delivers header values as Latin-1 text).
    - An object used as a record is the list of its entries in the order
      [Object.entries] / [Object.keys] enumerate them; the keys of an object
      are pairwise distinct ([wf_record]).  Keys are ordinary property names:
      the accessor name [__proto__] is not considered.
    - The header object that is built and sent is a finite map.
    - What the host provides and the module only calls (URL parsing and
      printing, [JSON.parse], [Buffer.prototype.toString]) is an interface,
      [Host]; the clock and the random source are inputs ([Env]).
    - The transport is seen through the events it reports to the listeners
      the connector installs; the call of [H.request] itself is taken to
      return. *)

From Stdlib Require Import ZArith NArith List Ascii String.
From Stdlib Require Import Strings.Byte.
From stdpp Require Import base strings gmap list.
Open Scope string_scope.

(** ** Scalars and records *)

(** A JavaScript number is kept by its canonical rendering, the string
    [Number.prototype.toString()] returns for it ("1", "0.5", "1e+21", "NaN");
    every use the connector makes of a number goes through that rendering. *)
Record number := Number { Number_toString : string }.

Inductive scalar :=
  | VString (s : string)
  | VNumber (n : number)
  | VBoolean (b : bool)
  | VNull
  | VUndefined.

(** [type TCommonRecord = Record<string, string | number | boolean>]; the
    code also tests the values for [null] and [undefined]. *)
Definition TCommonRecord := list (string * scalar).

(** What may arrive where the code says [any]: a scalar or a plain object. *)
Inductive any :=
  | AScalar (v : scalar)
  | ARecord (r : TCommonRecord).

Definition undefined : any := AScalar VUndefined.

Definition wf_record (r : TCommonRecord) : Prop := NoDup r.*1.

#[global] Instance wf_record_dec (r : TCommonRecord) : Decision (wf_record r).
Proof. unfold wf_record. apply _. Defined.

(** [const isInvalidValue = v => v === null || typeof v === 'undefined'] *)
Definition isInvalidValue (v : scalar) : bool :=
  match v with
  | VNull | VUndefined => true
  | _ => false
  end.

(** [const isRecord = v => Object.prototype.toString.call(v) === '[object Object]'] *)
Definition isRecord (v : any) : bool :=
  match v with
  | ARecord _ => true
  | AScalar _ => false
  end.

(** The language's conversion of a scalar to a string: what a template
    literal and [encodeURIComponent] apply to their argument, and what
    [v.toString()] returns for a scalar that is neither [null] nor
    [undefined]. *)
Definition ToString (v : scalar) : string :=
  match v with
  | VString s => s
  | VNumber n => Number_toString n
  | VBoolean true => "true"
  | VBoolean false => "false"
  | VNull => "null"
  | VUndefined => "undefined"
  end.

(** [Object.keys(data)] and [data[k]]. *)
Definition Object_keys (r : TCommonRecord) : list string := r.*1.

Fixpoint record_get (r : TCommonRecord) (k : string) : scalar :=
  match r with
  | [] => VUndefined
  | (k', v) :: r' => if String.eqb k' k then v else record_get r' k
  end.

(** ** Header construction *)

Definition HEADERS : gmap string string :=
  <["connection" := "keep-alive"]> (<["accept" := "*/*"]> ∅).

Definition HEADERS_STATIC : gmap string string :=
  {["user-agent" := "AnyConn/0.0.1"]}.

(** One turn of the [forEach] in [formatHeader]. *)
Definition set_header (h : gmap string string) (e : string * scalar) : gmap string string :=
  if isInvalidValue e.2 then h else <[e.1 := ToString e.2]> h.

(** [formatHeader]: [{ ...h, ...HEADERS_STATIC }] lets the entries of
    [HEADERS_STATIC] win, which is the left-biased union below. *)
Definition formatHeader (v : any) : gmap string string :=
  let h := HEADERS in
  let h := match v with
           | ARecord r => fold_left set_header r h
           | AScalar _ => h
           end in
  HEADERS_STATIC ∪ h.

(** ** Content types *)

Definition code (c : ascii) : N := N_of_ascii c.

(** [String.prototype.toLowerCase] on Latin-1 text: A-Z, and the letters
    U+00C0..U+00DE but the multiplication sign U+00D7. *)
Definition lower_char (c : ascii) : ascii :=
  let n := code c in
  if ((65 <=? n) && (n <=? 90) || (192 <=? n) && (n <=? 222) && negb (n =? 215))%N
  then ascii_of_N (n + 32) else c.

Fixpoint toLowerCase (s : string) : string :=
  match s with
  | EmptyString => EmptyString
  | String c t => String (lower_char c) (toLowerCase t)
  end.

(** The class [\s] on Latin-1 text: TAB, LF, VT, FF, CR, space, U+00A0. *)
Definition is_space (c : ascii) : bool :=
  let n := code c in ((9 <=? n) && (n <=? 13) || (n =? 32) || (n =? 160))%N.

(** What [.] does not match: the line terminators LF and CR. *)
Definition is_line_terminator (c : ascii) : bool :=
  let n := code c in ((n =? 10) || (n =? 13))%N.

Definition is_char (x c : ascii) : bool := Ascii.eqb x c.

(** [s.split(/\;\s*/)]: a semicolon and the white space after it separate
    two pieces.  [skip] says that the scan is inside that white space. *)
Fixpoint split_semicolon (skip : bool) (s : string) : list string :=
  match s with
  | EmptyString => [EmptyString]
  | String c t =>
      if skip && is_space c then split_semicolon true t
      else if is_char ";" c then EmptyString :: split_semicolon true t
      else match split_semicolon false t with
           | x :: xs => String c x :: xs
           | [] => [String c EmptyString]
           end
  end.

(** [s.split(/\/+/)]: a run of slashes separates two pieces. *)
Fixpoint split_slashes (skip : bool) (s : string) : list string :=
  match s with
  | EmptyString => [EmptyString]
  | String c t =>
      if is_char "/" c then
        if skip then split_slashes true t else EmptyString :: split_slashes true t
      else match split_slashes false t with
           | x :: xs => String c x :: xs
           | [] => [String c EmptyString]
           end
  end.

Fixpoint forallb_string (p : ascii -> bool) (s : string) : bool :=
  match s with
  | EmptyString => true
  | String c t => p c && forallb_string p t
  end.

Definition nonempty (s : string) : bool :=
  match s with EmptyString => false | String _ _ => true end.

(** [.+$] after the prefix: at least one character, none a line terminator. *)
Definition dot_plus (s : string) : bool :=
  nonempty s && forallb_string (fun c => negb (is_line_terminator c)) s.

(** Removal of a literal prefix, exactly or ignoring case. *)
Fixpoint strip_prefix (ci : bool) (p s : string) : option string :=
  match p, s with
  | EmptyString, _ => Some s
  | String a p', String b s' =>
      if Ascii.eqb a (if ci then lower_char b else b) then strip_prefix ci p' s' else None
  | String _ _, EmptyString => None
  end.

(** [/^charset\=.+$/i.test(ch)]: the prefix is compared ignoring case. *)
Definition charset_test (ch : string) : bool :=
  match strip_prefix true "charset=" ch with
  | Some rest => dot_plus rest
  | None => false
  end.

(** [ch.match(/^charset\=(.+)$/)], reduced to its group 1. *)
Definition charset_match (ch : string) : option string :=
  match strip_prefix false "charset=" ch with
  | Some rest => if dot_plus rest then Some rest else None
  | None => None
  end.

Record ContentType := { type : string; format : option string; charset : string }.

Definition ContentType_default : ContentType :=
  {| type := "text"; format := Some "plain"; charset := "utf-8" |}.

(** [getContentType]: the first branch is taken by everything that is not
    a string and by the empty string; [format] is [None] where the code
    leaves it [undefined]. *)
Definition getContentType (ct : any) : ContentType :=
  match ct with
  | AScalar (VString s) =>
      if nonempty s then
        let parts := split_semicolon false (toLowerCase s) in
        let t := nth 0 parts EmptyString in
        let ch := nth_error parts 1 in
        let charset :=
          match ch with
          | Some ch =>
              if nonempty ch && charset_test ch then
                match charset_match ch with
                | Some m1 => if nonempty m1 then m1 else "utf-8"
                | None => "utf-8"
                end
              else "utf-8"
          | None => "utf-8"
          end in
        let tf := split_slashes false t in
        {| type := nth 0 tf EmptyString; format := nth_error tf 1; charset := charset |}
      else ContentType_default
  | _ => ContentType_default
  end.

(** ** Encoders *)

Definition Buffer := list byte.

(** [Buffer.from(s)]: the UTF-8 bytes of [s]. *)
Definition Buffer_from (s : string) : Buffer := list_byte_of_string s.

(** [Buffer.concat(chunks)] *)
Definition Buffer_concat (chunks : list Buffer) : Buffer := concat chunks.

Definition dquote : ascii := "034"%char.
Definition newline : ascii := "010"%char.
Definition backslash : ascii := "092"%char.

Definition char (c : ascii) : string := String c EmptyString.

(** [xs.join(sep)] *)
Fixpoint join (sep : string) (xs : list string) : string :=
  match xs with
  | [] => EmptyString
  | [x] => x
  | x :: xs' => x ++ sep ++ join sep xs'
  end.

Definition digit_of (alphabet : string) (n : N) : ascii :=
  match String.get (N.to_nat n) alphabet with
  | Some c => c
  | None => "0"%char
  end.

Definition hex_upper : N -> ascii := digit_of "0123456789ABCDEF".
Definition hex_lower : N -> ascii := digit_of "0123456789abcdef".
Definition digit36 : N -> ascii := digit_of "0123456789abcdefghijklmnopqrstuvwxyz".

Definition in_range (lo hi c : ascii) : bool :=
  ((code lo <=? code c) && (code c <=? code hi))%N.

Fixpoint mem_char (c : ascii) (s : string) : bool :=
  match s with
  | EmptyString => false
  | String x t => Ascii.eqb x c || mem_char c t
  end.

(** The characters [encodeURIComponent] leaves alone. *)
Definition uri_unreserved (c : ascii) : bool :=
  in_range "A" "Z" c || in_range "a" "z" c || in_range "0" "9" c
  || mem_char c "-_.!~*'()".

Definition percent_encode (c : ascii) : string :=
  String "%" (String (hex_upper (code c / 16)) (char (hex_upper (code c mod 16)))).

(** [encodeURIComponent] on the UTF-8 bytes of a well-formed string. *)
Fixpoint encodeURIComponent (s : string) : string :=
  match s with
  | EmptyString => EmptyString
  | String c t =>
      (if uri_unreserved c then char c else percent_encode c) ++ encodeURIComponent t
  end.

(** [JSON.stringify] on a string: the quoted text with its escapes. *)
Definition JSON_escape_char (c : ascii) : string :=
  let n := code c in
  if (n =? 8)%N then String backslash "b"
  else if (n =? 9)%N then String backslash "t"
  else if (n =? 10)%N then String backslash "n"
  else if (n =? 12)%N then String backslash "f"
  else if (n =? 13)%N then String backslash "r"
  else if (n =? 34)%N then String backslash (char dquote)
  else if (n =? 92)%N then String backslash (char backslash)
  else if (n <? 32)%N then
    String backslash ("u00" ++ String (hex_lower (n / 16)) (char (hex_lower (n mod 16))))
  else char c.

Fixpoint JSON_escape (s : string) : string :=
  match s with
  | EmptyString => EmptyString
  | String c t => JSON_escape_char c ++ JSON_escape t
  end.

Definition JSON_quote (s : string) : string :=
  String dquote (JSON_escape s ++ char dquote).

(** [JSON.stringify] on a property value; [None] for [undefined], whose
    property is left out.  A number that is not finite is written [null]. *)
Definition JSON_value (v : scalar) : option string :=
  match v with
  | VString s => Some (JSON_quote s)
  | VNumber n =>
      let r := Number_toString n in
      if String.eqb r "NaN" || String.eqb r "Infinity" || String.eqb r "-Infinity"
      then Some "null" else Some r
  | VBoolean b => Some (ToString (VBoolean b))
  | VNull => Some "null"
  | VUndefined => None
  end.

Fixpoint JSON_members (r : TCommonRecord) : list string :=
  match r with
  | [] => []
  | (k, v) :: r' =>
      match JSON_value v with
      | Some j => (JSON_quote k ++ ":" ++ j) :: JSON_members r'
      | None => JSON_members r'
      end
  end.

(** [JSON.stringify(data)] for a record of scalars. *)
Definition JSON_stringify (r : TCommonRecord) : string :=
  "{" ++ join "," (JSON_members r) ++ "}".

(** [n.toString(36)] for an integer [n]. *)
Fixpoint to_base36 (fuel : nat) (n : N) (acc : string) : string :=
  match fuel with
  | O => acc
  | S fuel' =>
      if (n <? 36)%N then String (digit36 n) acc
      else to_base36 fuel' (n / 36) (String (digit36 (n mod 36)) acc)
  end.

Definition toString36 (z : Z) : string :=
  match z with
  | Z0 => "0"
  | Zpos p => to_base36 (S (N.to_nat (N.log2 (Npos p)))) (Npos p) EmptyString
  | Zneg p => String "-" (to_base36 (S (N.to_nat (N.log2 (Npos p)))) (Npos p) EmptyString)
  end.

(** [s.substring(n)] *)
Fixpoint substring_from (n : nat) (s : string) : string :=
  match n, s with
  | O, _ => s
  | S n', String _ t => substring_from n' t
  | S _, EmptyString => EmptyString
  end.

(** ** The host *)

Record Error := { error_name : string; error_message : string }.

(** A call that returns or throws. *)
Inductive result (A : Type) :=
  | Ok (a : A)
  | Throw (e : Error).
Arguments Ok {A} a.
Arguments Throw {A} e.

(** A parsed URL: what the connector reads ([protocol]), what it writes
    ([searchParams], the query as its list of name/value pairs) and the
    rest, which it never touches. *)
Record URL := {
  protocol : string;
  remainder : string;
  searchParams : list (string * string)
}.

(** [URLSearchParams.prototype.set]: the first pair of that name takes the
    value and the later ones are removed; without such a pair, one is
    appended. *)
Fixpoint params_set (name value : string) (ps : list (string * string)) : list (string * string) :=
  match ps with
  | [] => [(name, value)]
  | (n, v) :: ps' =>
      if decide (n = name)
      then (name, value) :: filter (λ p, p.1 ≠ name) ps'
      else (n, v) :: params_set name value ps'
  end.

Definition searchParams_set (u : URL) (name value : string) : URL :=
  {| protocol := protocol u; remainder := remainder u;
     searchParams := params_set name value (searchParams u) |}.

(** A value [JSON.parse] returns. *)
#[warnings="-register-all"]
Inductive json :=
  | JNull
  | JBool (b : bool)
  | JNumber (n : number)
  | JString (s : string)
  | JArray (xs : list json)
  | JObject (ms : list (string * json)).

(** The host functions the connector calls. *)
Class Host := {
  (** [new URL(s)] *)
  URL_parse : string -> result URL;
  (** [uri.toString()] *)
  URL_toString : URL -> string;
  (** [JSON.parse(s)] *)
  JSON_parse : string -> result json;
  (** [buffer.toString(encoding)] *)
  Buffer_toString : string -> Buffer -> result string
}.

(** The clock and the random source, as the two calls of one request see
    them: [Date.now()], and the base-36 renderings
    [Math.random().toString(36)] of the first and the second sample. *)
Record Env := {
  Date_now : Z;
  random36_fst : string;
  random36_snd : string
}.

(** ** The request *)

Inductive Method := GET | POST.
Inductive DataType := DT_json | DT_form | DT_formdata.
Inductive Transport := HTTP | HTTPS.

(** [THttpRequestOptions]; an absent [header] or [data] is [undefined]. *)
Record THttpRequestOptions := {
  url : string + URL;
  method : option Method;
  header : any;
  data : any;
  dataType : option DataType
}.

(** What [H.request] is called with and what is then written. *)
Record ClientRequest := {
  transport : Transport;
  uri : URL;
  href : string;
  req_method : Method;
  req_headers : gmap string string;
  body : Buffer;
  console : list string
}.

(** One turn of the [forEach] of the GET branch. *)
Definition set_param (u : URL) (e : string * scalar) : URL :=
  if isInvalidValue e.2 then u else searchParams_set u e.1 (ToString e.2).

(** The [form] body. *)
Definition form_body (data : TCommonRecord) : string :=
  join "&" (map (fun k => encodeURIComponent k ++ "=" ++
                          encodeURIComponent (ToString (record_get data k)))
                (Object_keys data)).

(** The multipart boundary. *)
Definition make_boundary (env : Env) : string :=
  "AnyConn" ++ toString36 (Date_now env)
  ++ substring_from 2 (random36_fst env) ++ substring_from 2 (random36_snd env).

Definition formdata_part (boundary : string) (e : string * scalar) : string :=
  ("--" ++ boundary ++ char newline)
  ++ ("Content-Disposition: form-data; name=" ++ char dquote ++ e.1 ++ char dquote
      ++ char newline ++ char newline)
  ++ (ToString e.2 ++ char newline).

Definition formdata_body (boundary : string) (data : TCommonRecord) : string :=
  join EmptyString (map (formdata_part boundary) data) ++ ("--" ++ boundary ++ "--").

Section Connector.
Context `{host : Host}.

(** [typeof url === 'string' ? new URL(url) : url] *)
Definition to_URL (url : string + URL) : result URL :=
  match url with
  | inl s => URL_parse s
  | inr u => Ok u
  end.

(** The synchronous part of [request]: from the options to the call of
    [H.request].  [Throw] is an exception inside the executor of the
    promise. *)
Definition prepare (env : Env) (options : THttpRequestOptions) : result ClientRequest :=
  let method := default GET (method options) in
  let dataType := default DT_json (dataType options) in
  match to_URL (url options) with
  | Throw e => Throw e
  | Ok uri =>
      let H := if String.eqb (protocol uri) "https:" then HTTPS else HTTP in
      let body : Buffer := [] in
      let headers := formatHeader (header options) in
      let '(uri, headers, body, console) :=
        match data options with
        | ARecord data =>
            match method with
            | GET => (fold_left set_param data uri, headers, body, [])
            | POST =>
                let contentType := default "application/json" (headers !! "content-type") in
                let ct := getContentType (AScalar (VString contentType)) in
                match dataType with
                | DT_json =>
                    (uri, <["content-type" := "application/json"]> headers,
                     Buffer_from (JSON_stringify data), [])
                | DT_form =>
                    (uri, <["content-type" := "application/x-www-form-urlencoded"]> headers,
                     Buffer_from (form_body data), [])
                | DT_formdata =>
                    let boundary := make_boundary env in
                    let dataStr := formdata_body boundary data in
                    (uri, <["content-type" := "multipart/form-data; boundary=" ++ boundary]> headers,
                     Buffer_from dataStr, [dataStr])
                end
            end
        | AScalar _ => (uri, headers, body, [])
        end in
      Ok {| transport := H; uri := uri; href := URL_toString uri; req_method := method;
            req_headers := headers; body := body; console := console |}
  end.
End Connector.

(** ** The exchange *)

(** [res]: the status and the headers of the response. *)
Record IncomingMessage := {
  res_statusCode : option Z;
  res_headers : gmap string string
}.

(** The decoded body: a parsed JSON value, a string, or the bytes. *)
Inductive Payload :=
  | PJson (j : json)
  | PText (s : string)
  | PBuffer (b : Buffer).

Module Result.
Record t := { statusCode : Z; data : Payload; headers : gmap string string }.
End Result.

Inductive Promise :=
  | Pending
  | Resolved (r : Result.t)
  | Rejected (e : Error).

(** A promise settles once: later calls of [resolve] and [reject] do
    nothing. *)
Definition resolve (p : Promise) (r : Result.t) : Promise :=
  match p with Pending => Resolved r | _ => p end.

Definition reject (p : Promise) (e : Error) : Promise :=
  match p with Pending => Rejected e | _ => p end.

(** What the transport reports to the listeners of [request]. *)
Inductive Event :=
  | ReqError (e : Error)              (* req.on('error') *)
  | WriteDone (err : option Error)    (* the callback of req.write *)
  | Response (res : IncomingMessage)  (* the callback of H.request *)
  | ResData (chunk : Buffer)          (* res.on('data') *)
  | ResError (e : Error)              (* res.on('error') *)
  | ResEnd.                           (* res.on('end') *)

(** The state of one call of [request]: the promise, the request that was
    issued, what was written to it and whether it was ended, the response
    whose listeners are installed, the chunks pushed so far, and the
    exceptions that left a listener uncaught. *)
Record Exchange := {
  promise : Promise;
  sent : option ClientRequest;
  written : option Buffer;
  ended : bool;
  response : option IncomingMessage;
  chunks : list Buffer;
  uncaught : list Error
}.

Definition with_promise (x : Exchange) (p : Promise) : Exchange :=
  {| promise := p; sent := sent x; written := written x; ended := ended x;
     response := response x; chunks := chunks x; uncaught := uncaught x |}.

Definition with_uncaught (x : Exchange) (e : Error) : Exchange :=
  {| promise := promise x; sent := sent x; written := written x; ended := ended x;
     response := response x; chunks := chunks x; uncaught := uncaught x ++ [e] |}.

(** [res.statusCode || 0] *)
Definition or_zero (n : option Z) : Z :=
  match n with
  | Some n => if (n =? 0)%Z then 0%Z else n
  | None => 0%Z
  end.

(** [res.headers['content-type']] *)
Definition header_value (h : gmap string string) (k : string) : any :=
  match h !! k with
  | Some s => AScalar (VString s)
  | None => undefined
  end.

Section Exchange.
Context `{host : Host}.

(** The body of [request] up to its return: the promise is rejected when
    the executor throws; otherwise the request is issued and the body is
    written when it is not empty, else the request is ended at once. *)
Definition request (env : Env) (options : THttpRequestOptions) : Exchange :=
  match prepare env options with
  | Throw e =>
      {| promise := Rejected e; sent := None; written := None; ended := false;
         response := None; chunks := []; uncaught := [] |}
  | Ok req =>
      let write := (0 <? length (body req))%nat in
      {| promise := Pending; sent := Some req;
         written := if write then Some (body req) else None;
         ended := negb write;
         response := None; chunks := []; uncaught := [] |}
  end.

(** The listener of ['end']. *)
Definition on_end (x : Exchange) (res : IncomingMessage) : Exchange :=
  let data := Buffer_concat (chunks x) in
  let contentType := header_value (res_headers res) "content-type" in
  let t := getContentType contentType in
  let settle d :=
    with_promise x (resolve (promise x)
      {| Result.data := d; Result.statusCode := or_zero (res_statusCode res);
         Result.headers := res_headers res |}) in
  if bool_decide (format t = Some "json") then
    match Buffer_toString (charset t) data with
    | Throw e => with_uncaught x e
    | Ok s =>
        match JSON_parse s with
        | Throw e => with_uncaught x e
        | Ok j => settle (PJson j)
        end
    end
  else if String.eqb (type t) "text" then
    match Buffer_toString (charset t) data with
    | Throw e => with_uncaught x e
    | Ok s => settle (PText s)
    end
  else settle (PBuffer data).

(** One event, handled by the listener the code installed for it; an
    event whose listener is not installed changes nothing. *)
Definition step (x : Exchange) (ev : Event) : Exchange :=
  match ev with
  | ReqError e =>
      match sent x with
      | Some _ => with_promise x (reject (promise x) e)
      | None => x
      end
  | WriteDone err =>
      match written x, ended x with
      | Some _, false =>
          match err with
          | Some e => with_promise x (reject (promise x) e)
          | None =>
              {| promise := promise x; sent := sent x; written := written x; ended := true;
                 response := response x; chunks := chunks x; uncaught := uncaught x |}
          end
      | _, _ => x
      end
  | Response res =>
      match sent x, response x with
      | Some _, None =>
          {| promise := promise x; sent := sent x; written := written x; ended := ended x;
             response := Some res; chunks := []; uncaught := uncaught x |}
      | _, _ => x
      end
  | ResData chunk =>
      match response x with
      | Some _ =>
          {| promise := promise x; sent := sent x; written := written x; ended := ended x;
             response := response x; chunks := chunks x ++ [chunk]; uncaught := uncaught x |}
      | None => x
      end
  | ResError e =>
      match response x with
      | Some _ => with_promise x (reject (promise x) e)
      | None => x
      end
  | ResEnd =>
      match response x with
      | Some res => on_end x res
      | None => x
      end
  end.

Definition run (x : Exchange) (evs : list Event) : Exchange := fold_left step evs x.

End Exchange.

(** ** A sample host

    A small host for the examples: URLs of the plain form
    [scheme:remainder?name=value&...], JSON texts, and the byte encodings
    [utf8], [latin1], [ascii] and [hex].  The theorems below hold for every
    host; this one serves to evaluate the connector on concrete inputs. *)
Module Sample.

Definition TypeError (msg : string) : Error :=
  {| error_name := "TypeError"; error_message := msg |}.
Definition SyntaxError (msg : string) : Error :=
  {| error_name := "SyntaxError"; error_message := msg |}.

(** *** URLs *)

(** The text before the first [sep], and the text after it if there is
    one. *)
Fixpoint cut (sep : ascii) (s : string) : string * option string :=
  match s with
  | EmptyString => (EmptyString, None)
  | String c t =>
      if Ascii.eqb c sep then (EmptyString, Some t)
      else let '(a, b) := cut sep t in (String c a, b)
  end.

Fixpoint split_on (sep : ascii) (s : string) : list string :=
  match s with
  | EmptyString => [EmptyString]
  | String c t =>
      if Ascii.eqb c sep then EmptyString :: split_on sep t
      else match split_on sep t with
           | x :: xs => String c x :: xs
           | [] => [String c EmptyString]
           end
  end.

Definition is_alpha (c : ascii) : bool := in_range "A" "Z" c || in_range "a" "z" c.
Definition is_digit (c : ascii) : bool := in_range "0" "9" c.

(** Characters the sample takes in a URL: printable ASCII but the ones
    that need decoding or start a fragment. *)
Definition plain_url_char (c : ascii) : bool :=
  in_range "!" "~" c && negb (mem_char c "#%+\^`{|}<>") && negb (Ascii.eqb c dquote).

Definition parse_pair (s : string) : string * string :=
  let '(n, v) := cut "=" s in (n, default EmptyString v).

Definition parse_query (q : string) : list (string * string) :=
  map parse_pair (filter (λ s, s ≠ EmptyString) (split_on "&" q)).

Definition URL_parse (s : string) : result URL :=
  match cut ":" s with
  | (String c scheme, Some rest) =>
      if is_alpha c && forallb_string (fun x => is_alpha x || is_digit x) scheme
         && forallb_string plain_url_char rest
      then
        let '(r, q) := cut "?" rest in
        Ok {| protocol := toLowerCase (String c scheme) ++ ":"; remainder := r;
              searchParams := parse_query (default EmptyString q) |}
      else Throw (TypeError "Invalid URL")
  | _ => Throw (TypeError "Invalid URL")
  end.

(** The serializer of [application/x-www-form-urlencoded]. *)
Fixpoint urlencode (s : string) : string :=
  match s with
  | EmptyString => EmptyString
  | String c t =>
      (if in_range "A" "Z" c || in_range "a" "z" c || in_range "0" "9" c || mem_char c "*-._"
       then char c
       else if Ascii.eqb c " " then "+" else percent_encode c) ++ urlencode t
  end.

Definition URL_toString (u : URL) : string :=
  protocol u ++ remainder u ++
  match searchParams u with
  | [] => EmptyString
  | ps => "?" ++ join "&" (map (fun p => urlencode p.1 ++ "=" ++ urlencode p.2) ps)
  end.

(** *** Byte encodings *)

Definition string_of_bytes (b : Buffer) : string := string_of_list_byte b.

Definition utf8_2 (n : N) : string :=
  String (ascii_of_N (192 + n / 64)) (char (ascii_of_N (128 + n mod 64))).

Definition latin1_char (b : byte) : string :=
  let n := Byte.to_N b in
  if (n <? 128)%N then char (ascii_of_N n) else utf8_2 n.

Definition hex_byte (b : byte) : string :=
  let n := Byte.to_N b in String (hex_lower (n / 16)) (char (hex_lower (n mod 16))).

Definition concat_map (f : byte -> string) (b : Buffer) : string :=
  fold_right (fun x acc => f x ++ acc) EmptyString b.

Definition Buffer_toString (encoding : string) (b : Buffer) : result string :=
  if String.eqb encoding "utf8" || String.eqb encoding "utf-8" then Ok (string_of_bytes b)
  else if String.eqb encoding "latin1" || String.eqb encoding "binary"
  then Ok (concat_map latin1_char b)
  else if String.eqb encoding "ascii"
  then Ok (concat_map (fun x => char (ascii_of_N (Byte.to_N x mod 128))) b)
  else if String.eqb encoding "hex" then Ok (concat_map hex_byte b)
  else Throw (TypeError ("Unknown encoding: " ++ encoding)).

(** *** JSON texts *)

Definition is_json_ws (c : ascii) : bool :=
  let n := code c in ((n =? 32) || (n =? 9) || (n =? 10) || (n =? 13))%N.

Fixpoint skip_ws (s : string) : string :=
  match s with
  | String c t => if is_json_ws c then skip_ws t else s
  | EmptyString => EmptyString
  end.

Fixpoint span (p : ascii -> bool) (s : string) : string * string :=
  match s with
  | String c t => if p c then let '(a, b) := span p t in (String c a, b) else (EmptyString, s)
  | EmptyString => (EmptyString, EmptyString)
  end.

Definition hex_value (c : ascii) : option N :=
  if is_digit c then Some (code c - 48)%N
  else if in_range "a" "f" c then Some (code c - 87)%N
  else if in_range "A" "F" c then Some (code c - 55)%N
  else None.

Definition hex4 (a b c d : ascii) : option N :=
  match hex_value a, hex_value b, hex_value c, hex_value d with
  | Some x, Some y, Some z, Some w => Some (((x * 16 + y) * 16 + z) * 16 + w)%N
  | _, _, _, _ => None
  end.

Definition cont (n : N) : ascii := ascii_of_N (128 + n mod 64).

(** The UTF-8 bytes of a code point. *)
Definition utf8 (n : N) : string :=
  if (n <? 128)%N then char (ascii_of_N n)
  else if (n <? 2048)%N then utf8_2 n
  else if (n <? 65536)%N
  then String (ascii_of_N (224 + n / 4096)) (String (cont (n / 64)) (char (cont n)))
  else String (ascii_of_N (240 + n / 262144))
         (String (cont (n / 4096)) (String (cont (n / 64)) (char (cont n)))).

Definition simple_escape (e : ascii) : option ascii :=
  if Ascii.eqb e dquote then Some dquote
  else if Ascii.eqb e backslash then Some backslash
  else if Ascii.eqb e "/" then Some "/"%char
  else if Ascii.eqb e "b" then Some "008"%char
  else if Ascii.eqb e "f" then Some "012"%char
  else if Ascii.eqb e "n" then Some "010"%char
  else if Ascii.eqb e "r" then Some "013"%char
  else if Ascii.eqb e "t" then Some "009"%char
  else None.

Definition push {A B : Type} (x : A) (r : option (list A * B)) : option (list A * B) :=
  match r with
  | Some (xs, b) => Some (x :: xs, b)
  | None => None
  end.

(** The content of a string literal after its opening quote: bytes
    written as they are, and the code units of the [\u] escapes. *)
Fixpoint string_items (s : string) : option (list (ascii + N) * string) :=
  match s with
  | EmptyString => None
  | String c t =>
      if Ascii.eqb c dquote then Some ([], t)
      else if (code c <? 32)%N then None
      else if Ascii.eqb c backslash then
        match t with
        | String e t1 =>
            match simple_escape e with
            | Some x => push (inl x) (string_items t1)
            | None =>
                if Ascii.eqb e "u" then
                  match t1 with
                  | String h1 (String h2 (String h3 (String h4 t2))) =>
                      match hex4 h1 h2 h3 h4 with
                      | Some n => push (inr n) (string_items t2)
                      | None => None
                      end
                  | _ => None
                  end
                else None
            end
        | EmptyString => None
        end
      else push (inl c) (string_items t)
  end.

Definition is_high (n : N) : bool := ((55296 <=? n) && (n <=? 56319))%N.
Definition is_low (n : N) : bool := ((56320 <=? n) && (n <=? 57343))%N.

(** A surrogate pair is one code point. *)
Fixpoint assemble (items : list (ascii + N)) : string :=
  match items with
  | [] => EmptyString
  | inl c :: rest => String c (assemble rest)
  | inr hi :: rest =>
      match rest with
      | inr lo :: rest' =>
          if is_high hi && is_low lo
          then utf8 (65536 + (hi - 55296) * 1024 + (lo - 56320)) ++ assemble rest'
          else utf8 hi ++ assemble rest
      | _ => utf8 hi ++ assemble rest
      end
  end.

Definition string_literal (s : string) : option (string * string) :=
  match string_items s with
  | Some (items, rest) => Some (assemble items, rest)
  | None => None
  end.

Definition digits1 (s : string) : option (string * string) :=
  let '(d, r) := span is_digit s in if nonempty d then Some (d, r) else None.

(** A numeric literal; the number is kept by the literal. *)
Definition number_literal (s : string) : option (string * string) :=
  let '(sign, s1) := match s with
                     | String "-" t => ("-", t)
                     | _ => (EmptyString, s)
                     end in
  match digits1 s1 with
  | Some (int, s2) =>
      if String.eqb int "0" || negb (String.eqb (substring 0 1 int) "0") then
        let frac := match s2 with
                    | String "." t =>
                        match digits1 t with
                        | Some (d, r) => Some ("." ++ d, r)
                        | None => None
                        end
                    | _ => Some (EmptyString, s2)
                    end in
        match frac with
        | Some (f, s3) =>
            let exp := match s3 with
                       | String e t =>
                           if mem_char e "eE" then
                             let '(sg, t') := match t with
                                              | String x t' =>
                                                  if mem_char x "+-" then (char x, t')
                                                  else (EmptyString, t)
                                              | EmptyString => (EmptyString, t)
                                              end in
                             match digits1 t' with
                             | Some (d, r) => Some (char e ++ sg ++ d, r)
                             | None => None
                             end
                           else Some (EmptyString, s3)
                       | EmptyString => Some (EmptyString, s3)
                       end in
            match exp with
            | Some (x, s4) => Some (sign ++ int ++ f ++ x, s4)
            | None => None
            end
        | None => None
        end
      else None
  | None => None
  end.

Fixpoint value (fuel : nat) (s : string) : option (json * string) :=
  match fuel with
  | O => None
  | S fuel' =>
      match skip_ws s with
      | EmptyString => None
      | String c t as s' =>
          if Ascii.eqb c "{" then
            match skip_ws t with
            | String "}" r => Some (JObject [], r)
            | _ => match members fuel' t with
                   | Some (ms, r) => Some (JObject ms, r)
                   | None => None
                   end
            end
          else if Ascii.eqb c "[" then
            match skip_ws t with
            | String "]" r => Some (JArray [], r)
            | _ => match elements fuel' t with
                   | Some (xs, r) => Some (JArray xs, r)
                   | None => None
                   end
            end
          else if Ascii.eqb c dquote then
            match string_literal t with
            | Some (x, r) => Some (JString x, r)
            | None => None
            end
          else
            match strip_prefix false "null" s', strip_prefix false "true" s',
                  strip_prefix false "false" s' with
            | Some r, _, _ => Some (JNull, r)
            | _, Some r, _ => Some (JBool true, r)
            | _, _, Some r => Some (JBool false, r)
            | None, None, None =>
                match number_literal s' with
                | Some (x, r) => Some (JNumber (Number x), r)
                | None => None
                end
            end
      end
  end
with elements (fuel : nat) (s : string) : option (list json * string) :=
  match fuel with
  | O => None
  | S fuel' =>
      match value fuel' s with
      | Some (v, r) =>
          match skip_ws r with
          | String "," r' => push v (elements fuel' r')
          | String "]" r' => Some ([v], r')
          | _ => None
          end
      | None => None
      end
  end
with members (fuel : nat) (s : string) : option (list (string * json) * string) :=
  match fuel with
  | O => None
  | S fuel' =>
      match skip_ws s with
      | String q t =>
          if Ascii.eqb q dquote then
            match string_literal t with
            | Some (k, r) =>
                match skip_ws r with
                | String ":" r1 =>
                    match value fuel' r1 with
                    | Some (v, r2) =>
                        match skip_ws r2 with
                        | String "," r3 => push (k, v) (members fuel' r3)
                        | String "}" r3 => Some ([(k, v)], r3)
                        | _ => None
                        end
                    | None => None
                    end
                | _ => None
                end
            | None => None
            end
          else None
      | EmptyString => None
      end
  end.

Definition JSON_parse (s : string) : result json :=
  match value (2 * String.length s + 2) s with
  | Some (j, r) =>
      match skip_ws r with
      | EmptyString => Ok j
      | String _ _ => Throw (SyntaxError "Unexpected non-whitespace character after JSON")
      end
  | None => Throw (SyntaxError "Unexpected token or end of JSON input")
  end.

Definition host : Host := Build_Host URL_parse URL_toString JSON_parse Buffer_toString.

Definition env : Env :=
  {| Date_now := 1700000000000; random36_fst := "0.4fzyo82mvyr"; random36_snd := "0.k2j8s1x9qd" |}.
End Sample.

(** * The vocabulary of the properties *)



(** The entries the caller supplied as [header]: none when it is not a
    record. *)
Definition caller_record (v : any) : TCommonRecord :=
  match v with
  | ARecord r => r
  | AScalar _ => []
  end.


#[global] Arguments is_char : simpl never.
#[global] Arguments is_space : simpl never.
#[global] Arguments is_line_terminator : simpl never.
#[global] Arguments lower_char : simpl never.

Definition no_char (x : ascii) (s : string) : bool :=
  forallb_string (fun c => negb (is_char x c)) s.

(** A piece of a media type: no semicolon and no slash in it. *)
Definition plain (s : string) : bool := no_char ";" s && no_char "/" s.




Definition str (s : string) : any := AScalar (VString s).


(** One pair of a form body. *)
Definition form_pair (e : string * scalar) : string :=
  encodeURIComponent e.1 ++ "=" ++ encodeURIComponent (ToString e.2).

Definition sample_url : URL :=
  {| protocol := "http:"; remainder := "//h/p"; searchParams := [] |}.





(** The pairs of a query that carry a given name. *)
Definition named (n : string) (ps : list (string * string)) : list (string * string) :=
  filter (λ p, p.1 = n) ps.

(** Until the response arrives, an exchange is pending, with a request
    issued and no response listener installed. *)
Definition awaiting (x : Exchange) : Prop :=
  promise x = Pending ∧ is_Some (sent x) ∧ response x = None ∧ uncaught x = [].

Definition sample_get : THttpRequestOptions :=
  {| url := inl "http://h/p"; method := None; header := undefined;
     data := undefined; dataType := None |}.

Definition sample_get_request : ClientRequest :=
  {| transport := HTTP; uri := sample_url; href := "http://h/p"; req_method := GET;
     req_headers := formatHeader undefined; body := []; console := [] |}.

Definition sample_response (status : option Z) (ct : option string) : IncomingMessage :=
  {| res_statusCode := status;
     res_headers := match ct with
                    | Some v => {["content-type" := v]}
                    | None => ∅
                    end |}.

(** A text that lower-casing leaves as it is. *)
Definition is_lower (s : string) : bool :=
  forallb_string (fun c => Ascii.eqb (lower_char c) c) s.

(** A piece of a descriptor: lower-case, with no semicolon and no slash. *)
Definition token (s : string) : bool := is_lower s && plain s.

(** A run of [n + 1] slashes. *)
Fixpoint slashes (n : nat) : string :=
  match n with
  | O => "/"
  | S n' => String "/" (slashes n')
  end.

(** The options with another [header], [dataType], or both. *)
Definition with_header (o : THttpRequestOptions) (h : any) : THttpRequestOptions :=
  {| url := url o; method := method o; header := h; data := data o;
     dataType := dataType o |}.

Definition with_dataType (o : THttpRequestOptions) (dt : option DataType) : THttpRequestOptions :=
  {| url := url o; method := method o; header := header o; data := data o;
     dataType := dt |}.

(** The names the connector itself puts in a header set. *)
Definition own_header_names : list string :=
  ["accept"; "connection"; "user-agent"; "content-type"].

(** The names a GET sets on the URL: the keys of the data whose value is
    neither null nor undefined. *)
Definition set_names (r : TCommonRecord) : list string :=
  (filter (λ e, isInvalidValue e.2 = false) r).*1.

(** The pairs of a query that a GET with these data leaves alone. *)
Definition untouched (r : TCommonRecord) (ps : list (string * string)) : list (string * string) :=
  filter (λ p, p.1 ∉ set_names r) ps.

(** Reading a percent-encoded text: [%XY] is the byte of the two hex
    digits, every other character is itself. *)
Fixpoint percent_decode (s : string) : string :=
  match s with
  | EmptyString => EmptyString
  | String c t =>
      if Ascii.eqb c "%" then
        match t with
        | String a (String b t') =>
            match Sample.hex_value a, Sample.hex_value b with
            | Some x, Some y => String (ascii_of_N (x * 16 + y)) (percent_decode t')
            | _, _ => String c (percent_decode t)
            end
        | _ => String c (percent_decode t)
        end
      else String c (percent_decode t)
  end.

(** Reading a form body: the pairs are separated by [&], a name from its
    value by the first [=], and both are percent-decoded. *)
Definition read_pair (s : string) : string * string :=
  let '(k, v) := Sample.cut "=" s in
  (percent_decode k, percent_decode (default EmptyString v)).

Definition read_form (body : string) : list (string * string) :=
  match body with
  | EmptyString => []
  | String _ _ => map read_pair (Sample.split_on "&" body)
  end.

(** The entries as a form carries them: each value in its string form. *)
Definition entries_as_strings (r : TCommonRecord) : list (string * string) :=
  map (λ e, (e.1, ToString e.2)) r.

(** A digit of base 36. *)
Definition is_base36 (c : ascii) : bool := in_range "0" "9" c || in_range "a" "z" c.

Definition sample_error : Error :=
  {| error_name := "Error"; error_message := "socket hang up" |}.

Definition sample_post : THttpRequestOptions :=
  {| url := inl "http://h/p"; method := Some POST; header := undefined;
     data := ARecord [("a", VNumber (Number "1"))]; dataType := None |}.

Definition sample_post_request : ClientRequest :=
  {| transport := HTTP; uri := sample_url; href := "http://h/p"; req_method := POST;
     req_headers := <["content-type" := "application/json"]> (formatHeader undefined);
     body := Buffer_from (JSON_stringify [("a", VNumber (Number "1"))]); console := [] |}.

(** * Evaluation on concrete inputs *)

Example getContentType_json :
  getContentType (AScalar (VString "Application/JSON; Charset=UTF-8"))
  = {| type := "application"; format := Some "json"; charset := "utf-8" |}.
Proof. reflexivity. Qed.

Example getContentType_latin1 :
  getContentType (AScalar (VString "text/html;   charset=latin1; q=1"))
  = {| type := "text"; format := Some "html"; charset := "latin1" |}.
Proof. reflexivity. Qed.

Example encodeURIComponent_ex : encodeURIComponent "a b&c/ä" = "a%20b%26c%2F%C3%A4".
Proof. reflexivity. Qed.

Example JSON_stringify_ex :
  JSON_stringify [("a", VNumber (Number "1")); ("u", VUndefined); ("s", VString "x\y")]
  = String "{" (String dquote ("a" ++ String dquote (":1," ++ String dquote ("s" ++
      String dquote (":" ++ String dquote ("x\\y" ++ String dquote "}")))))).
Proof. reflexivity. Qed.

Example toString36_ex : toString36 1700000000000 = "loyw3v28".
Proof. reflexivity. Qed.

Section SampleExamples.
#[local] Existing Instance Sample.host.

Example Sample_URL :
  URL_toString (searchParams_set
    {| protocol := "http:"; remainder := "//h/p";
       searchParams := [("a", "0"); ("b", "x"); ("a", "2")] |}
    "a" "1 2") = "http://h/p?a=1+2&b=x".
Proof. reflexivity. Qed.

Example Sample_URL_parse :
  URL_parse "http://h/p?a=0&b=x"
  = Ok {| protocol := "http:"; remainder := "//h/p"; searchParams := [("a", "0"); ("b", "x")] |}.
Proof. reflexivity. Qed.

Example Sample_JSON_parse :
  JSON_parse (JSON_stringify [("x", VNumber (Number "1")); ("s", VString "a\b");
                              ("t", VBoolean true)])
  = Ok (JObject [("x", JNumber (Number "1")); ("s", JString "a\b"); ("t", JBool true)]).
Proof. vm_compute. reflexivity. Qed.

Example Sample_JSON_parse_nested :
  JSON_parse "[1, [2.5e3, {}], null ]"
  = Ok (JArray [JNumber (Number "1"); JArray [JNumber (Number "2.5e3"); JObject []]; JNull]).
Proof. vm_compute. reflexivity. Qed.

Example Sample_JSON_parse_error :
  JSON_parse "{" = Throw (Sample.SyntaxError "Unexpected token or end of JSON input").
Proof. vm_compute. reflexivity. Qed.
End SampleExamples.

(** * Properties *)

(** ** Header construction *)





Lemma formatHeader_user_agent (v : any) :
  formatHeader v !! "user-agent" = Some "AnyConn/0.0.1".
Proof.
  unfold formatHeader. apply lookup_union_Some_l. unfold HEADERS_STATIC.
  apply lookup_singleton_eq.
Qed.

Lemma wf_record_other_key (r : TCommonRecord) (k k' : string) (v : scalar) :
  k' ∉ r.*1 → (k, v) ∈ r → k ≠ k'.
Proof.
  intros Hk Hin ->. apply Hk. apply list_elem_of_fmap. by exists (k', v).
Qed.



Section RequestProperties.
Context `{host : Host}.

(** The request carries the header set of [formatHeader]; encoding a POST
    body replaces its [content-type] and nothing else. *)
Lemma prepare_headers (env : Env) (o : THttpRequestOptions) (req : ClientRequest) :
  prepare env o = Ok req →
  (∀ k, k ≠ "content-type" → req_headers req !! k = formatHeader (header o) !! k)
  ∧ (isRecord (data o) = false ∨ default GET (method o) = GET →
     req_headers req = formatHeader (header o)).
Proof.
  unfold prepare. destruct (to_URL (url o)) as [u|e]; [|discriminate].
  destruct (data o) as [v|r]; simpl.
  - intros [= <-]. simpl. split; [done|]. done.
  - destruct (default GET (method o)); simpl.
    + intros [= <-]. simpl. split; [done|]. done.
    + destruct (default DT_json (dataType o)); intros [= <-]; simpl;
        (split; [intros k Hk; by rewrite lookup_insert_ne|]);
        intros [?|?]; discriminate.
Qed.

End RequestProperties.



(** ** Content types *)

Lemma lower_char_class (c : ascii) :
  is_char ";" (lower_char c) = is_char ";" c
  ∧ is_char "/" (lower_char c) = is_char "/" c
  ∧ is_space (lower_char c) = is_space c
  ∧ is_line_terminator (lower_char c) = is_line_terminator c
  ∧ lower_char (lower_char c) = lower_char c.
Proof. destruct c as [[] [] [] [] [] [] [] []]; vm_compute; repeat split. Qed.

Lemma toLowerCase_app (a b : string) :
  toLowerCase (a ++ b) = toLowerCase a ++ toLowerCase b.
Proof. induction a as [|c a IH]; simpl; [done|]. by rewrite IH. Qed.

Lemma forallb_string_lower (p : ascii → bool) (s : string) :
  (∀ c, p (lower_char c) = p c) → forallb_string p (toLowerCase s) = forallb_string p s.
Proof. intros Hp. induction s as [|c s IH]; simpl; [done|]. by rewrite Hp, IH. Qed.

Lemma no_char_semicolon_lower (s : string) : no_char ";" (toLowerCase s) = no_char ";" s.
Proof.
  apply forallb_string_lower. intros c.
  by destruct (lower_char_class c) as (-> & _).
Qed.

Lemma no_char_slash_lower (s : string) : no_char "/" (toLowerCase s) = no_char "/" s.
Proof.
  apply forallb_string_lower. intros c.
  by destruct (lower_char_class c) as (_ & -> & _).
Qed.


Lemma nonempty_lower (s : string) : nonempty (toLowerCase s) = nonempty s.
Proof. by destruct s. Qed.





Lemma string_app_cons (c : ascii) (a b : string) : String c a ++ b = String c (a ++ b).
Proof. reflexivity. Qed.

Lemma string_app_nil_r (s : string) : s ++ EmptyString = s.
Proof. induction s as [|c s IH]; [done|]. by rewrite string_app_cons, IH. Qed.

Lemma string_app_assoc (a b c : string) : (a ++ b) ++ c = a ++ (b ++ c).
Proof. induction a as [|x a IH]; [done|]. by rewrite !string_app_cons, IH. Qed.

Lemma forallb_string_app (p : ascii → bool) (a b : string) :
  forallb_string p (a ++ b) = forallb_string p a && forallb_string p b.
Proof.
  induction a as [|c a IH]; [done|].
  rewrite string_app_cons. simpl. by rewrite IH, andb_assoc.
Qed.

Lemma nonempty_app_cons (a b : string) (c : ascii) : nonempty (a ++ String c b) = true.
Proof. by destruct a. Qed.

Lemma split_semicolon_cons (skip : bool) (s : string) :
  split_semicolon skip s = hd EmptyString (split_semicolon skip s) :: tl (split_semicolon skip s).
Proof.
  revert skip. induction s as [|c s IH]; intros skip; [done|]. simpl.
  destruct (skip && is_space c); [apply IH|].
  destruct (is_char ";" c); [done|]. by destruct (split_semicolon false s).
Qed.

(** A piece without semicolon stays in front of what follows it. *)
Lemma split_semicolon_head (h t : string) :
  no_char ";" h = true →
  split_semicolon false (h ++ t)
  = (h ++ hd EmptyString (split_semicolon false t)) :: tl (split_semicolon false t).
Proof.
  induction h as [|c h IH]; intros Hh.
  - apply split_semicolon_cons.
  - unfold no_char in Hh. simpl in Hh. apply andb_prop in Hh as [Hc Hh].
    rewrite string_app_cons. simpl. apply negb_true_iff in Hc. rewrite Hc.
    by rewrite (IH Hh).
Qed.





Lemma split_semicolon_single (t : string) :
  no_char ";" t = true → split_semicolon false t = [t].
Proof.
  intros Ht. rewrite <- (string_app_nil_r t) at 1.
  rewrite (split_semicolon_head t _ Ht). simpl. by rewrite string_app_nil_r.
Qed.






Lemma plain_lower (s : string) : plain (toLowerCase s) = plain s.
Proof. unfold plain. by rewrite no_char_semicolon_lower, no_char_slash_lower. Qed.







(** ** Request construction *)

Lemma record_get_entry (r : TCommonRecord) (k : string) (v : scalar) :
  wf_record r → (k, v) ∈ r → record_get r k = v.
Proof.
  unfold wf_record. induction r as [|[k' v'] r IH]; intros Hnd Hin;
    [by apply elem_of_nil in Hin|].
  rewrite fmap_cons in Hnd. apply NoDup_cons in Hnd as [Hk Hnd]. simpl.
  apply elem_of_cons in Hin as [Heq|Hin].
  - injection Heq as -> ->. by rewrite String.eqb_refl.
  - pose proof (wf_record_other_key _ _ _ _ Hk Hin) as Hne.
    destruct (String.eqb_spec k' k) as [->|_]; [done|]. by apply IH.
Qed.

(** On an object, reading [data[k]] for each key gives the value of the
    entry: the form body is made of the entries in their order. *)
Lemma form_body_entries (r : TCommonRecord) :
  wf_record r → form_body r = join "&" (map form_pair r).
Proof.
  intros Hwf. unfold form_body, Object_keys. f_equal.
  assert (∀ r', (∀ e, e ∈ r' → e ∈ r) →
    map (λ k, encodeURIComponent k ++ "=" ++ encodeURIComponent (ToString (record_get r k))) r'.*1
    = map form_pair r') as Hsub.
  { induction r' as [|[k v] r' IH]; intros Hin; [done|].
    rewrite fmap_cons. simpl. f_equal.
    - unfold form_pair. simpl. rewrite (record_get_entry r k v Hwf); [done|].
      apply Hin. by left.
    - apply IH. intros e He. apply Hin. by right. }
  by apply Hsub.
Qed.

Section Construction.
Context `{host : Host}.

Lemma request_prepared (env : Env) (o : THttpRequestOptions) (req : ClientRequest) :
  prepare env o = Ok req →
  request env o =
  {| promise := Pending; sent := Some req;
     written := if (0 <? length (body req))%nat then Some (body req) else None;
     ended := negb (0 <? length (body req))%nat;
     response := None; chunks := []; uncaught := [] |}.
Proof. intros Hreq. unfold request. by rewrite Hreq. Qed.



End Construction.




(** ** The multipart body *)

Lemma join_empty_cons (x : string) (xs : list string) : join EmptyString (x :: xs) = x ++ join EmptyString xs.
Proof. destruct xs as [|y ys]; [by rewrite string_app_nil_r|done]. Qed.






Section Multipart.
Context `{host : Host}.

End Multipart.


(** ** Query parameters *)

Lemma named_cons_eq (n v : string) (ps : list (string * string)) :
  named n ((n, v) :: ps) = (n, v) :: named n ps.
Proof. unfold named. by rewrite filter_cons_True. Qed.

Lemma named_cons_ne (n k v : string) (ps : list (string * string)) :
  k ≠ n → named n ((k, v) :: ps) = named n ps.
Proof. intros Hne. unfold named. by rewrite filter_cons_False. Qed.

Lemma named_removed (n : string) (ps : list (string * string)) :
  named n (filter (λ p, p.1 ≠ n) ps) = [].
Proof.
  unfold named. induction ps as [|[k v] ps IH]; [done|].
  destruct (decide (k = n)) as [->|Hne].
  - by rewrite (filter_cons_False (λ p, p.1 ≠ n)) by (simpl; tauto).
  - rewrite (filter_cons_True (λ p, p.1 ≠ n)) by done.
    by rewrite filter_cons_False.
Qed.

Lemma named_kept (n k : string) (ps : list (string * string)) :
  n ≠ k → named n (filter (λ p, p.1 ≠ k) ps) = named n ps.
Proof.
  intros Hnk. unfold named. induction ps as [|[k' v] ps IH]; [done|].
  destruct (decide (k' = k)) as [->|Hne].
  - rewrite (filter_cons_False (λ p, p.1 ≠ k)) by (simpl; tauto).
    rewrite IH. by rewrite filter_cons_False by (simpl; congruence).
  - rewrite (filter_cons_True (λ p, p.1 ≠ k)) by done.
    destruct (decide (k' = n)) as [->|Hne'].
    + rewrite !filter_cons_True by done. by rewrite IH.
    + rewrite !filter_cons_False by done. by rewrite IH.
Qed.

(** [set] leaves one pair of that name, with the new value. *)
Lemma params_set_named (k v : string) (ps : list (string * string)) :
  named k (params_set k v ps) = [(k, v)].
Proof.
  induction ps as [|[n x] ps IH]; [simpl; by rewrite named_cons_eq|].
  simpl. destruct (decide (n = k)) as [->|Hne].
  - by rewrite named_cons_eq, named_removed.
  - by rewrite named_cons_ne.
Qed.

(** [set] does not touch the pairs of another name. *)
Lemma params_set_other (n k v : string) (ps : list (string * string)) :
  n ≠ k → named n (params_set k v ps) = named n ps.
Proof.
  intros Hnk. induction ps as [|[n' x] ps IH]; [simpl; by rewrite named_cons_ne|].
  simpl. destruct (decide (n' = k)) as [->|Hne].
  - by rewrite !named_cons_ne, named_kept.
  - destruct (decide (n' = n)) as [->|Hne'].
    + by rewrite !named_cons_eq, IH.
    + by rewrite !named_cons_ne, IH.
Qed.


(** A name that the data do not set keeps its pairs. *)
Lemma fold_set_param_other (r : TCommonRecord) (u : URL) (n : string) :
  (∀ v, (n, v) ∈ r → isInvalidValue v = true) →
  named n (searchParams (fold_left set_param r u)) = named n (searchParams u).
Proof.
  revert u. induction r as [|[k v] r IH]; intros u Hn; [done|].
  simpl. rewrite IH by (intros v' Hin; apply Hn; by right).
  unfold set_param. simpl. destruct (isInvalidValue v) eqn:Hv; [done|].
  simpl. apply params_set_other. intros ->.
  rewrite (Hn v) in Hv; [discriminate|by left].
Qed.

(** A name that the data set has one pair, with the value of the data. *)
Lemma fold_set_param_set (r : TCommonRecord) (u : URL) (k : string) (v : scalar) :
  wf_record r → (k, v) ∈ r → isInvalidValue v = false →
  named k (searchParams (fold_left set_param r u)) = [(k, ToString v)].
Proof.
  unfold wf_record. revert u. induction r as [|[k' v'] r IH]; intros u Hnd Hin Hv;
    [by apply elem_of_nil in Hin|].
  rewrite fmap_cons in Hnd. apply NoDup_cons in Hnd as [Hk Hnd]. simpl.
  apply elem_of_cons in Hin as [Heq|Hin].
  - injection Heq as -> ->. rewrite fold_set_param_other.
    + unfold set_param. simpl. rewrite Hv. simpl. apply params_set_named.
    + intros w Hin. exfalso. apply Hk. apply list_elem_of_fmap. by exists (k', w).
  - by apply IH.
Qed.

Section Query.
Context `{host : Host}.

End Query.


(** ** The response *)

Lemma or_zero_default (n : option Z) : or_zero n = default 0%Z n.
Proof. destruct n as [z|]; [|done]. simpl. by destruct (Z.eqb_spec z 0). Qed.

Section Response.
Context `{host : Host}.

Lemma run_app (x : Exchange) (evs evs' : list Event) :
  run x (evs ++ evs')%list = run (run x evs) evs'.
Proof. apply fold_left_app. Qed.

Lemma run_cons (x : Exchange) (ev : Event) (evs : list Event) :
  run x (ev :: evs) = run (step x ev) evs.
Proof. reflexivity. Qed.

Lemma request_awaiting (env : Env) (o : THttpRequestOptions) (req : ClientRequest) :
  prepare env o = Ok req → awaiting (request env o).
Proof. intros Hreq. rewrite (request_prepared _ _ _ Hreq). by repeat split. Qed.

(** A write that succeeds ends the request and nothing else. *)
Lemma written_awaiting (x : Exchange) (pre : list Event) :
  Forall (λ ev, ev = WriteDone None) pre → awaiting x → awaiting (run x pre).
Proof.
  intros Hpre. revert x. induction Hpre as [|ev pre -> _ IH]; intros x Hx; [done|].
  simpl. apply IH. destruct Hx as (Hp & Hs & Hr & Hu). unfold step.
  destruct (written x), (ended x); by repeat split.
Qed.

(** The chunks are kept in the order of their arrival. *)
Lemma run_data (x : Exchange) (res : IncomingMessage) (cs : list Buffer) :
  response x = Some res →
  promise (run x (map ResData cs)) = promise x
  ∧ response (run x (map ResData cs)) = Some res
  ∧ chunks (run x (map ResData cs)) = (chunks x ++ cs)%list
  ∧ uncaught (run x (map ResData cs)) = uncaught x.
Proof.
  revert x. induction cs as [|c cs IH]; intros x Hres.
  - simpl. by rewrite app_nil_r.
  - cbn [map]. rewrite run_cons.
    assert (response (step x (ResData c)) = Some res) as Hres'
      by (simpl; by rewrite Hres).
    destruct (IH _ Hres') as (-> & -> & -> & ->). simpl. rewrite Hres. simpl.
    by rewrite <- app_assoc.
Qed.

(** The state in which the listener of ['end'] runs. *)
Lemma run_to_end (x : Exchange) (pre : list Event) (res : IncomingMessage) (cs : list Buffer) :
  awaiting x → Forall (λ ev, ev = WriteDone None) pre →
  ∃ y, run x (pre ++ Response res :: map ResData cs ++ [ResEnd])%list = on_end y res
       ∧ promise y = Pending ∧ chunks y = cs ∧ uncaught y = [].
Proof.
  intros Hx Hpre. destruct (written_awaiting x pre Hpre Hx) as (Hp & [q Hs] & Hr & Hu).
  rewrite run_app. set (x1 := run x pre) in *.
  change (Response res :: map ResData cs ++ [ResEnd])%list
    with ([Response res] ++ map ResData cs ++ [ResEnd])%list.
  rewrite !run_app. set (x2 := run x1 [Response res]).
  assert (promise x2 = Pending ∧ response x2 = Some res ∧ chunks x2 = [] ∧ uncaught x2 = [])
    as (Hp2 & Hr2 & Hc2 & Hu2).
  { unfold x2. simpl. by rewrite Hs, Hr. }
  destruct (run_data x2 res cs Hr2) as (Hp3 & Hr3 & Hc3 & Hu3).
  exists (run x2 (map ResData cs)). simpl. rewrite Hr3.
  rewrite Hp3, Hc3, Hu3, Hc2. done.
Qed.

(** C9.  When the response has ended, the promise is resolved according to
    the descriptor of the response's [content-type]: for the format
    [json], with the JSON value parsed from the bytes decoded in the
    descriptor's charset; else for the type [text], with the bytes decoded
    in that charset and not parsed; otherwise with the accumulated bytes as
    they are.  The status code is that of the response, or 0 without one;
    the headers are those of the response. *)
Theorem response_decoding (env : Env) (o : THttpRequestOptions) (req : ClientRequest)
    (pre : list Event) (res : IncomingMessage) (cs : list Buffer) :
  prepare env o = Ok req → Forall (λ ev, ev = WriteDone None) pre →
  let x := run (request env o) (pre ++ Response res :: map ResData cs ++ [ResEnd])%list in
  let t := getContentType (header_value (res_headers res) "content-type") in
  let bytes := Buffer_concat cs in
  let resolved d :=
    Resolved {| Result.statusCode := default 0%Z (res_statusCode res);
                Result.data := d; Result.headers := res_headers res |} in
  (format t = Some "json" →
     ∀ s j, Buffer_toString (charset t) bytes = Ok s → JSON_parse s = Ok j →
            promise x = resolved (PJson j))
  ∧ (format t ≠ Some "json" → type t = "text" →
     ∀ s, Buffer_toString (charset t) bytes = Ok s → promise x = resolved (PText s))
  ∧ (format t ≠ Some "json" → type t ≠ "text" → promise x = resolved (PBuffer bytes)).
Proof.
  intros Hreq Hpre x t bytes resolved.
  destruct (run_to_end _ pre res cs (request_awaiting _ _ _ Hreq) Hpre)
    as (y & Hrun & Hp & Hc & _).
  unfold x. rewrite Hrun. unfold on_end. rewrite Hc, Hp. fold t bytes.
  unfold resolved. rewrite <- or_zero_default. repeat split.
  - intros Hf s j Hs Hj. rewrite bool_decide_eq_true_2 by done. by rewrite Hs, Hj.
  - intros Hf Ht s Hs. rewrite bool_decide_eq_false_2 by done.
    apply String.eqb_eq in Ht. by rewrite Ht, Hs.
  - intros Hf Ht. rewrite bool_decide_eq_false_2 by done.
    apply String.eqb_neq in Ht. by rewrite Ht.
Qed.

(** C3 (what the code does).  When the format is [json] and the decoded
    body is not a JSON text, the error of [JSON.parse] is thrown inside the
    listener of ['end']: nothing catches it, and the promise is neither
    rejected nor resolved. *)
Theorem invalid_json_not_rejected (env : Env) (o : THttpRequestOptions) (req : ClientRequest)
    (pre : list Event) (res : IncomingMessage) (cs : list Buffer) (s : string) (e : Error) :
  prepare env o = Ok req → Forall (λ ev, ev = WriteDone None) pre →
  let x := run (request env o) (pre ++ Response res :: map ResData cs ++ [ResEnd])%list in
  let t := getContentType (header_value (res_headers res) "content-type") in
  format t = Some "json" →
  Buffer_toString (charset t) (Buffer_concat cs) = Ok s → JSON_parse s = Throw e →
  promise x = Pending ∧ uncaught x = [e] ∧ (∀ e', promise x ≠ Rejected e').
Proof.
  intros Hreq Hpre x t Hf Hs Hj.
  destruct (run_to_end _ pre res cs (request_awaiting _ _ _ Hreq) Hpre)
    as (y & Hrun & Hp & Hc & Hu).
  unfold x. rewrite Hrun. unfold on_end. rewrite Hc. fold t.
  rewrite bool_decide_eq_true_2 by done. rewrite Hs, Hj. simpl.
  rewrite Hp, Hu. done.
Qed.

End Response.

Lemma response_decoding_witness :
  let json_res := sample_response (Some 200%Z) (Some "application/json; charset=utf-8") in
  let text_res := sample_response None None in
  let data_res := sample_response (Some 404%Z) (Some "image/png") in
  let c1 := Buffer_from (String "{" (String dquote "x")) in
  let c2 := Buffer_from (String dquote ":1}") in
  promise (run (host := Sample.host) (request (host := Sample.host) Sample.env sample_get)
             [Response json_res; ResData c1; ResData c2; ResEnd])
  = Resolved {| Result.statusCode := 200; Result.headers := res_headers json_res;
                Result.data := PJson (JObject [("x", JNumber (Number "1"))]) |}
  ∧ promise (run (host := Sample.host) (request (host := Sample.host) Sample.env sample_get)
               [Response text_res; ResData (Buffer_from "hel"); ResData (Buffer_from "lo"); ResEnd])
    = Resolved {| Result.statusCode := 0; Result.headers := ∅;
                  Result.data := PText "hello" |}
  ∧ promise (run (host := Sample.host) (request (host := Sample.host) Sample.env sample_get)
               [Response data_res; ResData c1; ResData c2; ResEnd])
    = Resolved {| Result.statusCode := 404; Result.headers := res_headers data_res;
                  Result.data := PBuffer (c1 ++ c2)%list |}.
Proof.
  intros json_res text_res data_res c1 c2.
  edestruct (response_decoding (host := Sample.host) Sample.env sample_get sample_get_request []
               json_res [c1; c2]) as (Hjson & _ & _); [reflexivity|constructor|].
  edestruct (response_decoding (host := Sample.host) Sample.env sample_get sample_get_request []
               text_res [Buffer_from "hel"; Buffer_from "lo"]) as (_ & Htext & _);
    [reflexivity|constructor|].
  edestruct (response_decoding (host := Sample.host) Sample.env sample_get sample_get_request []
               data_res [c1; c2]) as (_ & _ & Hdata); [reflexivity|constructor|].
  split; [|split].
  - eapply Hjson; [reflexivity|reflexivity|vm_compute; reflexivity].
  - eapply Htext; [discriminate|reflexivity|reflexivity].
  - apply Hdata; vm_compute; discriminate.
Defined.

Lemma invalid_json_not_rejected_witness :
  let res := sample_response (Some 200%Z) (Some "application/json") in
  let x := run (host := Sample.host) (request (host := Sample.host) Sample.env sample_get)
             [Response res; ResData (Buffer_from "{"); ResEnd] in
  promise x = Pending
  ∧ uncaught x = [Sample.SyntaxError "Unexpected token or end of JSON input"].
Proof.
  intros res x.
  edestruct (invalid_json_not_rejected (host := Sample.host) Sample.env sample_get sample_get_request []
               res [Buffer_from "{"]) as (Hp & Hu & _);
    [reflexivity|constructor|reflexivity|reflexivity|vm_compute; reflexivity|].
  split; [exact Hp|exact Hu].
Defined.


(** * Further properties *)

(** ** The life of an exchange *)

Section Settling.
Context `{host : Host}.

Lemma on_end_promise (x : Exchange) (res : IncomingMessage) :
  promise x ≠ Pending → promise (on_end x res) = promise x.
Proof.
  intros Hp. unfold on_end.
  destruct (bool_decide _); [|destruct (String.eqb _ _)];
    repeat (destruct (Buffer_toString _ _) || destruct (JSON_parse _));
    simpl; by destruct (promise x).
Qed.

Lemma step_settled (x : Exchange) (ev : Event) :
  promise x ≠ Pending → promise (step x ev) = promise x.
Proof.
  intros Hp. destruct ev as [e|[e|]|res|c|e|]; simpl.
  - destruct (sent x); simpl; by destruct (promise x).
  - destruct (written x), (ended x); simpl; by destruct (promise x).
  - by destruct (written x), (ended x).
  - by destruct (sent x), (response x).
  - by destruct (response x).
  - destruct (response x); simpl; by destruct (promise x).
  - destruct (response x); [by apply on_end_promise|done].
Qed.

Lemma run_settled (x : Exchange) (evs : list Event) :
  promise x ≠ Pending → promise (run x evs) = promise x.
Proof.
  revert x. induction evs as [|ev evs IH]; intros x Hp; [done|].
  rewrite run_cons, IH; rewrite step_settled; done.
Qed.

(** The state of an exchange whose response is being received. *)
Lemma run_to_stream (x : Exchange) (pre : list Event) (res : IncomingMessage)
    (cs : list Buffer) :
  awaiting x → Forall (λ ev, ev = WriteDone None) pre →
  let y := run x (pre ++ Response res :: map ResData cs)%list in
  promise y = Pending ∧ response y = Some res ∧ chunks y = cs ∧ uncaught y = []
  ∧ sent y = sent x.
Proof.
  intros Hx Hpre. assert (sent (run x pre) = sent x) as Hsent.
  { clear Hx. revert x. induction Hpre as [|ev pre -> _ IH]; intros x; [done|].
    rewrite run_cons, IH. simpl. by destruct (written x), (ended x). }
  destruct (written_awaiting x pre Hpre Hx) as (Hp & [q Hs] & Hr & Hu).
  cbn zeta. rewrite run_app. set (x1 := run x pre) in *. rewrite run_cons.
  set (x2 := step x1 (Response res)).
  assert (promise x2 = Pending ∧ response x2 = Some res ∧ chunks x2 = []
          ∧ uncaught x2 = [] ∧ sent x2 = sent x1) as (Hp2 & Hr2 & Hc2 & Hu2 & Hs2).
  { unfold x2. simpl. by rewrite Hs, Hr. }
  destruct (run_data x2 res cs Hr2) as (-> & -> & -> & ->). rewrite Hc2.
  repeat (split; [done|]). rewrite <- Hsent, <- Hs2. clear -Hr2.
  revert Hr2. generalize x2. induction cs as [|c cs IH]; intros y Hy; [done|].
  cbn [map]. rewrite run_cons, IH; simpl; by rewrite Hy.
Qed.

(** X1.  A promise settles once: after the events that resolved or
    rejected it, nothing the transport reports changes the outcome. *)
Theorem promise_settles_once (x : Exchange) (evs later : list Event) :
  promise (run x evs) ≠ Pending →
  promise (run x (evs ++ later)%list) = promise (run x evs).
Proof. intros Hp. rewrite run_app. by apply run_settled. Qed.

(** X2.  An error of the request, before any response, rejects the promise
    with that error, and no later event changes that. *)
Theorem request_error_rejects (env : Env) (o : THttpRequestOptions) (req : ClientRequest)
    (pre later : list Event) (e : Error) :
  prepare env o = Ok req → Forall (λ ev, ev = WriteDone None) pre →
  promise (run (request env o) (pre ++ ReqError e :: later)%list) = Rejected e.
Proof.
  intros Hreq Hpre.
  destruct (written_awaiting _ pre Hpre (request_awaiting _ _ _ Hreq)) as (Hp & [q Hs] & _).
  rewrite run_app, run_cons.
  assert (promise (step (run (request env o) pre) (ReqError e)) = Rejected e) as Hrej
    by (simpl; by rewrite Hs, Hp).
  rewrite run_settled; [done|]. by rewrite Hrej.
Qed.

(** X3.  An error of the response in mid-stream rejects the promise with
    that error: the chunks received so far are not delivered, and an
    ['end'] that follows does not resolve the promise. *)
Theorem response_error_rejects (env : Env) (o : THttpRequestOptions) (req : ClientRequest)
    (pre later : list Event) (res : IncomingMessage) (cs : list Buffer) (e : Error) :
  prepare env o = Ok req → Forall (λ ev, ev = WriteDone None) pre →
  promise (run (request env o)
             (pre ++ Response res :: map ResData cs ++ ResError e :: later)%list)
  = Rejected e.
Proof.
  intros Hreq Hpre.
  destruct (run_to_stream _ pre res cs (request_awaiting _ _ _ Hreq) Hpre)
    as (Hp & Hr & _).
  replace (pre ++ Response res :: map ResData cs ++ ResError e :: later)%list
    with ((pre ++ Response res :: map ResData cs) ++ ResError e :: later)%list
    by (by rewrite <- app_assoc).
  rewrite run_app, run_cons.
  set (y := run (request env o) (pre ++ Response res :: map ResData cs)%list) in *.
  assert (promise (step y (ResError e)) = Rejected e) as Hrej
    by (simpl; by rewrite Hr, Hp).
  rewrite run_settled; [done|]. by rewrite Hrej.
Qed.
End Settling.

Lemma join_amp_cons (x : string) (xs : list string) :
  join "&" (x :: xs) = x ++ match xs with [] => EmptyString | _ => "&" ++ join "&" xs end.
Proof. destruct xs; [by rewrite string_app_nil_r|done]. Qed.

Section Writing.
Context `{host : Host}.



(** X6.  A [url] string that the URL parser refuses rejects the promise
    with the parser's error; no request is issued, and no event changes the
    exchange. *)
Theorem invalid_url_rejects (env : Env) (o : THttpRequestOptions) (s : string) (e : Error)
    (evs : list Event) :
  url o = inl s → URL_parse s = Throw e →
  promise (request env o) = Rejected e
  ∧ sent (request env o) = None
  ∧ run (request env o) evs = request env o.
Proof.
  intros Hurl He. unfold request, prepare. rewrite Hurl. simpl. rewrite He.
  split; [done|]. split; [done|].
  induction evs as [|ev evs IH]; [done|]. rewrite run_cons.
  by destruct ev as [?|[?|]|?|?|?|].
Qed.
End Writing.

Section Decoding.
Context `{host : Host}.

(** What the listener of ['end'] leaves depends on the promise, on the
    concatenation of the chunks and on the exceptions seen so far. *)
Lemma on_end_outcome (y y' : Exchange) (res : IncomingMessage) :
  promise y = promise y' → Buffer_concat (chunks y) = Buffer_concat (chunks y') →
  uncaught y = uncaught y' →
  promise (on_end y res) = promise (on_end y' res)
  ∧ uncaught (on_end y res) = uncaught (on_end y' res).
Proof.
  intros Hp Hc Hu. unfold on_end. rewrite Hc.
  destruct (bool_decide _); [|destruct (String.eqb _ _)];
    repeat (destruct (Buffer_toString _ _) || destruct (JSON_parse _));
    simpl; by rewrite ?Hp, ?Hu.
Qed.

(** X7.  When [Buffer.toString] refuses the charset of the descriptor (an
    encoding the host does not know), in the [json] and in the [text]
    branch alike, the exception leaves the listener of ['end']: the promise
    is neither resolved nor rejected. *)
Theorem unknown_charset_not_rejected (env : Env) (o : THttpRequestOptions)
    (req : ClientRequest) (pre : list Event) (res : IncomingMessage) (cs : list Buffer)
    (e : Error) :
  prepare env o = Ok req → Forall (λ ev, ev = WriteDone None) pre →
  let x := run (request env o) (pre ++ Response res :: map ResData cs ++ [ResEnd])%list in
  let t := getContentType (header_value (res_headers res) "content-type") in
  format t = Some "json" ∨ type t = "text" →
  Buffer_toString (charset t) (Buffer_concat cs) = Throw e →
  promise x = Pending ∧ uncaught x = [e].
Proof.
  intros Hreq Hpre x t Hbranch He.
  destruct (run_to_end _ pre res cs (request_awaiting _ _ _ Hreq) Hpre)
    as (y & Hrun & Hp & Hc & Hu).
  unfold x. rewrite Hrun. unfold on_end. rewrite Hc. fold t. rewrite He.
  destruct (bool_decide (format t = Some "json")) eqn:Hf; simpl.
  - by rewrite Hp, Hu.
  - destruct Hbranch as [Hj|Ht].
    + apply bool_decide_eq_false in Hf. done.
    + apply String.eqb_eq in Ht. rewrite Ht. simpl. by rewrite Hp, Hu.
Qed.

(** X8.  The outcome depends on the bytes of the response, not on how the
    transport cut them into chunks. *)
Theorem chunking_is_irrelevant (env : Env) (o : THttpRequestOptions) (req : ClientRequest)
    (pre : list Event) (res : IncomingMessage) (cs cs' : list Buffer) :
  prepare env o = Ok req → Forall (λ ev, ev = WriteDone None) pre →
  Buffer_concat cs = Buffer_concat cs' →
  let x := run (request env o) (pre ++ Response res :: map ResData cs ++ [ResEnd])%list in
  let x' := run (request env o) (pre ++ Response res :: map ResData cs' ++ [ResEnd])%list in
  promise x = promise x' ∧ uncaught x = uncaught x'.
Proof.
  intros Hreq Hpre Hcs x x'.
  destruct (run_to_end _ pre res cs (request_awaiting _ _ _ Hreq) Hpre)
    as (y & Hrun & Hp & Hc & Hu).
  destruct (run_to_end _ pre res cs' (request_awaiting _ _ _ Hreq) Hpre)
    as (y' & Hrun' & Hp' & Hc' & Hu').
  unfold x, x'. rewrite Hrun, Hrun'. apply on_end_outcome.
  - by rewrite Hp, Hp'.
  - by rewrite Hc, Hc'.
  - by rewrite Hu, Hu'.
Qed.
End Decoding.

(** ** The shape of a descriptor *)

Lemma split_slashes_cons (skip : bool) (s : string) :
  split_slashes skip s
  = hd EmptyString (split_slashes skip s) :: tl (split_slashes skip s).
Proof.
  revert skip. induction s as [|c s IH]; intros skip; [done|]. simpl.
  destruct (is_char "/" c); [destruct skip; [apply IH|done]|].
  by destruct (split_slashes false s).
Qed.

(** A piece of a split has the characters of the text it is cut from. *)
Lemma split_semicolon_forall (p : ascii → bool) (skip : bool) (s x : string) :
  forallb_string p s = true → x ∈ split_semicolon skip s → forallb_string p x = true.
Proof.
  revert skip x. induction s as [|c s IH]; intros skip x Hs Hx.
  - apply list_elem_of_singleton in Hx as ->. done.
  - simpl in Hs. apply andb_prop in Hs as [Hc Hs]. simpl in Hx.
    destruct (skip && is_space c); [by eapply IH|].
    destruct (is_char ";" c).
    + apply elem_of_cons in Hx as [->|Hx]; [done|by eapply IH].
    + rewrite (split_semicolon_cons false s) in Hx.
      apply elem_of_cons in Hx as [->|Hx].
      * simpl. rewrite Hc. simpl. apply (IH false); [done|].
        rewrite (split_semicolon_cons false s). by left.
      * apply (IH false); [done|]. rewrite (split_semicolon_cons false s). by right.
Qed.

Lemma split_slashes_forall (p : ascii → bool) (skip : bool) (s x : string) :
  forallb_string p s = true → x ∈ split_slashes skip s → forallb_string p x = true.
Proof.
  revert skip x. induction s as [|c s IH]; intros skip x Hs Hx.
  - apply list_elem_of_singleton in Hx as ->. done.
  - simpl in Hs. apply andb_prop in Hs as [Hc Hs]. simpl in Hx.
    destruct (is_char "/" c).
    + destruct skip; [by eapply IH|].
      apply elem_of_cons in Hx as [->|Hx]; [done|by eapply IH].
    + rewrite (split_slashes_cons false s) in Hx.
      apply elem_of_cons in Hx as [->|Hx].
      * simpl. rewrite Hc. simpl. apply (IH false); [done|].
        rewrite (split_slashes_cons false s). by left.
      * apply (IH false); [done|]. rewrite (split_slashes_cons false s). by right.
Qed.

(** No piece holds the separator. *)
Lemma split_semicolon_pieces (skip : bool) (s x : string) :
  x ∈ split_semicolon skip s → no_char ";" x = true.
Proof.
  revert skip x. induction s as [|c s IH]; intros skip x Hx.
  - apply list_elem_of_singleton in Hx as ->. done.
  - simpl in Hx. destruct (skip && is_space c); [by eapply IH|].
    destruct (is_char ";" c) eqn:Hc.
    + apply elem_of_cons in Hx as [->|Hx]; [done|by eapply IH].
    + rewrite (split_semicolon_cons false s) in Hx.
      apply elem_of_cons in Hx as [->|Hx].
      * unfold no_char. simpl. rewrite Hc. simpl. apply (IH false).
        rewrite (split_semicolon_cons false s). by left.
      * apply (IH false). rewrite (split_semicolon_cons false s). by right.
Qed.

Lemma split_slashes_pieces (skip : bool) (s x : string) :
  x ∈ split_slashes skip s → no_char "/" x = true.
Proof.
  revert skip x. induction s as [|c s IH]; intros skip x Hx.
  - apply list_elem_of_singleton in Hx as ->. done.
  - simpl in Hx. destruct (is_char "/" c) eqn:Hc.
    + destruct skip; [by eapply IH|].
      apply elem_of_cons in Hx as [->|Hx]; [done|by eapply IH].
    + rewrite (split_slashes_cons false s) in Hx.
      apply elem_of_cons in Hx as [->|Hx].
      * unfold no_char. simpl. rewrite Hc. simpl. apply (IH false).
        rewrite (split_slashes_cons false s). by left.
      * apply (IH false). rewrite (split_slashes_cons false s). by right.
Qed.

Lemma is_lower_toLowerCase (s : string) : is_lower (toLowerCase s) = true.
Proof.
  induction s as [|c s IH]; [done|]. unfold is_lower. simpl.
  destruct (lower_char_class c) as (_ & _ & _ & _ & ->).
  by rewrite Ascii.eqb_refl.
Qed.

Lemma toLowerCase_is_lower (s : string) : is_lower s = true → toLowerCase s = s.
Proof.
  induction s as [|c s IH]; [done|]. unfold is_lower. simpl.
  intros [Hc Hs]%andb_prop. apply Ascii.eqb_eq in Hc. by rewrite Hc, IH.
Qed.

Lemma strip_prefix_forall (q : ascii → bool) (ci : bool) (p s m : string) :
  strip_prefix ci p s = Some m → forallb_string q s = true → forallb_string q m = true.
Proof.
  revert s. induction p as [|a p IH]; intros s; simpl.
  - by intros [= ->].
  - destruct s as [|b s]; [done|].
    destruct (Ascii.eqb a _); [|done]. simpl.
    intros Hm [_ Hs]%andb_prop. by eapply IH.
Qed.

Lemma head_elem_of (l : list string) : hd EmptyString l :: tl l = l → nth 0 l EmptyString ∈ l.
Proof. destruct l; [done|]. intros _. by left. Qed.

Lemma token_piece (t x : string) :
  is_lower t = true → no_char ";" t = true → x ∈ split_slashes false t → token x = true.
Proof.
  intros Hl Hs Hx.
  assert (is_lower x = true) as H1
    by (unfold is_lower in *; by eapply split_slashes_forall).
  assert (no_char ";" x = true) as H2
    by (unfold no_char in *; by eapply split_slashes_forall).
  pose proof (split_slashes_pieces false t x Hx) as H3.
  unfold token, plain. by rewrite H1, H2, H3.
Qed.

(** X9.  Whatever the input, the descriptor is well formed: [type] and
    [format] are lower-case and hold neither a semicolon nor a slash; the
    charset is lower-case, not empty, and holds neither a semicolon nor a
    line terminator. *)
Theorem descriptor_shape (v : any) :
  let d := getContentType v in
  token (type d) = true
  ∧ (∀ f, format d = Some f → token f = true)
  ∧ is_lower (charset d) = true
  ∧ no_char ";" (charset d) = true
  ∧ dot_plus (charset d) = true.
Proof.
  assert (let d := ContentType_default in
          token (type d) = true ∧ (∀ f, format d = Some f → token f = true)
          ∧ is_lower (charset d) = true ∧ no_char ";" (charset d) = true
          ∧ dot_plus (charset d) = true) as Hdefault.
  { simpl. split; [done|]. split; [by intros f [= <-]|]. done. }
  destruct v as [[s| | | |]|r]; try exact Hdefault.
  unfold getContentType. destruct (nonempty s); [|exact Hdefault].
  set (parts := split_semicolon false (toLowerCase s)).
  pose proof (is_lower_toLowerCase s) as Hlow.
  assert (∀ x, x ∈ parts → is_lower x = true ∧ no_char ";" x = true) as Hparts.
  { intros x Hx. split; [by eapply split_semicolon_forall|by eapply split_semicolon_pieces]. }
  assert (nth 0 parts EmptyString ∈ parts) as Ht
    by (apply head_elem_of; symmetry; apply split_semicolon_cons).
  destruct (Hparts _ Ht) as [Htl Hts].
  set (t := nth 0 parts EmptyString) in *.
  cbn zeta. cbn [type format charset]. split; [|split].
  - apply (token_piece t); [done..|].
    apply head_elem_of. symmetry. apply split_slashes_cons.
  - intros f Hf. apply (token_piece t); [done..|].
    apply list_elem_of_In. by eapply nth_error_In.
  - destruct (nth_error parts 1) as [ch|] eqn:Hch; [|done].
    assert (ch ∈ parts) as Hin by (apply list_elem_of_In; by eapply nth_error_In).
    destruct (Hparts _ Hin) as [Hcl Hcs].
    destruct (nonempty ch && charset_test ch); [|done].
    unfold charset_match.
    destruct (strip_prefix false "charset=" ch) as [m1|] eqn:Hm; [|done].
    destruct (dot_plus m1) eqn:Hdot; [|done].
    destruct (nonempty m1); [|done].
    split; [by eapply strip_prefix_forall|].
    split; [|done]. unfold no_char in *. by eapply strip_prefix_forall.
Qed.

Lemma descriptor_shape_witness :
  let d := getContentType (str "Text/HTML;  Charset=Shift_JIS; x=1/2") in
  format d = Some "html" ∧ token "html" = true ∧ charset d = "shift_jis".
Proof.
  destruct (descriptor_shape (str "Text/HTML;  Charset=Shift_JIS; x=1/2"))
    as (_ & Hf & _).
  split; [reflexivity|]. split; [|reflexivity]. apply Hf. reflexivity.
Defined.

(** X10.  The descriptor does not depend on the case of the letters of
    the value. *)
Theorem descriptor_ignores_case (s s' : string) :
  toLowerCase s = toLowerCase s' → getContentType (str s) = getContentType (str s').
Proof.
  intros Heq. unfold getContentType, str.
  rewrite <- (nonempty_lower s), <- (nonempty_lower s'), Heq. done.
Qed.

Lemma descriptor_ignores_case_witness :
  getContentType (str "APPLICATION/JSON; CHARSET=UTF-8")
  = getContentType (str "application/json; charset=utf-8").
Proof. apply descriptor_ignores_case. reflexivity. Defined.

Lemma slashes_cons (n : nat) : ∃ s, slashes n = String "/" s.
Proof. destruct n; by eexists. Qed.

Lemma slashes_lower (n : nat) : toLowerCase (slashes n) = slashes n.
Proof. induction n as [|n IH]; [done|]. simpl. by rewrite IH. Qed.

Lemma slashes_no_semicolon (n : nat) : no_char ";" (slashes n) = true.
Proof. induction n as [|n IH]; [done|]. unfold no_char in *. simpl. by rewrite IH. Qed.

Lemma split_slashes_head (h t : string) :
  no_char "/" h = true →
  split_slashes false (h ++ t)
  = (h ++ hd EmptyString (split_slashes false t)) :: tl (split_slashes false t).
Proof.
  induction h as [|c h IH]; intros Hh.
  - apply split_slashes_cons.
  - unfold no_char in Hh. simpl in Hh. apply andb_prop in Hh as [Hc Hh].
    rewrite string_app_cons. simpl. apply negb_true_iff in Hc. rewrite Hc.
    by rewrite (IH Hh).
Qed.

Lemma split_slashes_run (n : nat) (x : string) :
  split_slashes true (slashes n ++ x) = split_slashes true x
  ∧ split_slashes false (slashes n ++ x) = EmptyString :: split_slashes true x.
Proof.
  induction n as [|n [IH1 IH2]]; [done|].
  cbn [slashes]. rewrite string_app_cons. simpl. by rewrite IH1.
Qed.

(** X11.  A run of slashes separates as one slash does, and of what
    follows the first separator only the piece up to the next slash is kept
    as [format]. *)
Theorem descriptor_slash_runs (ty fmt tail : string) (n : nat) :
  plain ty = true → plain fmt = true → nonempty fmt = true →
  no_char ";" tail = true →
  match tail with String c _ => is_char "/" c | EmptyString => true end = true →
  getContentType (str (ty ++ slashes n ++ fmt ++ tail))
  = {| type := toLowerCase ty; format := Some (toLowerCase fmt); charset := "utf-8" |}.
Proof.
  intros Hty Hfmt Hne Htail Hsep.
  rewrite <- plain_lower in Hty, Hfmt. rewrite <- nonempty_lower in Hne.
  rewrite <- no_char_semicolon_lower in Htail.
  assert (match toLowerCase tail with String c _ => is_char "/" c | EmptyString => true end
          = true) as Hsep'.
  { destruct tail as [|c tail]; [done|]. simpl.
    by destruct (lower_char_class c) as (_ & -> & _). }
  unfold getContentType, str.
  assert (nonempty (ty ++ slashes n ++ fmt ++ tail) = true) as ->.
  { destruct (slashes_cons n) as [sl ->]. rewrite string_app_cons.
    apply nonempty_app_cons. }
  rewrite !toLowerCase_app, slashes_lower.
  set (TY := toLowerCase ty) in *. set (FMT := toLowerCase fmt) in *.
  set (TAIL := toLowerCase tail) in *.
  apply andb_prop in Hty as [Hty1 Hty2]. apply andb_prop in Hfmt as [Hfmt1 Hfmt2].
  rewrite split_semicolon_single.
  2:{ pose proof (slashes_no_semicolon n) as Hsl.
      unfold no_char in *. by rewrite !forallb_string_app, Hty1, Hfmt1, Htail, Hsl. }
  cbn [nth nth_error].
  rewrite (split_slashes_head TY _ Hty2).
  destruct (split_slashes_run n (FMT ++ TAIL)) as [_ ->]. cbn [hd tl].
  rewrite string_app_nil_r.
  assert (split_slashes true (FMT ++ TAIL) = split_slashes false (FMT ++ TAIL)) as ->.
  { destruct FMT as [|c f]; [done|]. rewrite string_app_cons. simpl.
    unfold no_char in Hfmt2. simpl in Hfmt2. apply andb_prop in Hfmt2 as [Hc _].
    apply negb_true_iff in Hc. by rewrite Hc. }
  rewrite (split_slashes_head FMT _ Hfmt2).
  assert (hd EmptyString (split_slashes false TAIL) = EmptyString) as ->.
  { destruct TAIL as [|c t]; [done|]. simpl. by rewrite Hsep'. }
  by rewrite string_app_nil_r.
Qed.

Lemma descriptor_slash_runs_witness :
  getContentType (str "Application///JSON/extra/more")
  = {| type := "application"; format := Some "json"; charset := "utf-8" |}.
Proof.
  apply (descriptor_slash_runs "Application" "JSON" "/extra/more" 2); reflexivity.
Defined.

(** ** What the header set holds *)

Lemma fold_set_header_some (r : TCommonRecord) (h : gmap string string) (k : string) :
  is_Some (h !! k) → is_Some (fold_left set_header r h !! k).
Proof.
  revert h. induction r as [|[k' v] r IH]; intros h Hk; [done|].
  simpl. apply IH. unfold set_header. simpl. destruct (isInvalidValue v); [done|].
  destruct (decide (k' = k)) as [->|Hne].
  - rewrite lookup_insert_eq. by eexists.
  - by rewrite lookup_insert_ne.
Qed.

Lemma fold_set_header_origin (r : TCommonRecord) (h : gmap string string) (k x : string) :
  fold_left set_header r h !! k = Some x →
  h !! k = Some x ∨ ∃ v, (k, v) ∈ r ∧ isInvalidValue v = false ∧ x = ToString v.
Proof.
  revert h. induction r as [|[k' v] r IH]; intros h Hx; [by left|].
  simpl in Hx. apply IH in Hx as [Hx|(w & Hin & Hw & ->)].
  - unfold set_header in Hx. simpl in Hx. destruct (isInvalidValue v) eqn:Hv; [by left|].
    destruct (decide (k' = k)) as [->|Hne].
    + rewrite lookup_insert_eq in Hx. injection Hx as <-.
      right. exists v. split; [by left|done].
    + rewrite lookup_insert_ne in Hx by done. by left.
  - right. exists w. split; [by right|done].
Qed.

Section HeaderSet.
Context `{host : Host}.

(** X12.  Every request carries [accept], [connection] and the identity
    [user-agent], whatever the caller's headers are: no entry of the caller,
    not even one whose value is null, removes one of the three. *)
Theorem default_headers_always_sent (env : Env) (o : THttpRequestOptions)
    (req : ClientRequest) :
  prepare env o = Ok req →
  is_Some (req_headers req !! "accept")
  ∧ is_Some (req_headers req !! "connection")
  ∧ req_headers req !! "user-agent" = Some "AnyConn/0.0.1".
Proof.
  intros Hreq. destruct (prepare_headers _ _ _ Hreq) as [Hk _].
  rewrite !Hk by done. clear Hk Hreq.
  assert (∀ k, is_Some (HEADERS !! k) → is_Some (formatHeader (header o) !! k)) as Hsome.
  { intros k Hk. unfold formatHeader.
    assert (is_Some (match header o with
                     | ARecord r => fold_left set_header r HEADERS
                     | AScalar _ => HEADERS
                     end !! k)) as [x Hx]
      by (destruct (header o); [done|by apply fold_set_header_some]).
    rewrite lookup_union. rewrite Hx. by destruct (HEADERS_STATIC !! k). }
  split; [by apply Hsome|]. split; [by apply Hsome|]. apply formatHeader_user_agent.
Qed.

(** X13.  The connector sends no header of its own making beyond its four
    names: any other name in the outgoing set is a key of the caller's
    [header] whose value is neither null nor undefined, and it carries the
    string form of such a value. *)
Theorem no_invented_headers (env : Env) (o : THttpRequestOptions) (req : ClientRequest)
    (k x : string) :
  prepare env o = Ok req → req_headers req !! k = Some x →
  k ∈ own_header_names
  ∨ ∃ v, (k, v) ∈ caller_record (header o) ∧ isInvalidValue v = false ∧ x = ToString v.
Proof.
  intros Hreq Hx. destruct (prepare_headers _ _ _ Hreq) as [Hk _].
  destruct (decide (k = "content-type")) as [->|Hct].
  { left. unfold own_header_names. set_solver. }
  rewrite Hk in Hx by done. unfold formatHeader in Hx.
  apply lookup_union_Some_raw in Hx as [Hx|[_ Hx]].
  { left. unfold HEADERS_STATIC in Hx. apply lookup_singleton_Some in Hx as [<- _].
    unfold own_header_names. set_solver. }
  assert (HEADERS !! k = Some x → k ∈ own_header_names) as Hown.
  { unfold HEADERS. intros H0.
    apply lookup_insert_Some in H0 as [[<- _]|[_ H0]];
      [unfold own_header_names; set_solver|].
    apply lookup_insert_Some in H0 as [[<- _]|[_ H0]];
      [unfold own_header_names; set_solver|done]. }
  destruct (header o) as [w|r]; simpl; [left; by apply Hown|].
  apply fold_set_header_origin in Hx as [Hx|Hx]; [left; by apply Hown|by right].
Qed.
End HeaderSet.

Lemma default_headers_always_sent_witness :
  let o := {| url := inl "http://h/p"; method := Some POST;
              header := ARecord [("accept", VString "text/plain"); ("connection", VNull)];
              data := undefined; dataType := None |} in
  ∃ req, prepare (host := Sample.host) Sample.env o = Ok req
         ∧ is_Some (req_headers req !! "accept")
         ∧ is_Some (req_headers req !! "connection").
Proof.
  intros o. eexists. split; [reflexivity|].
  destruct (default_headers_always_sent (host := Sample.host) Sample.env o _ eq_refl)
    as (Ha & Hc & _).
  split; [exact Ha|exact Hc].
Defined.

Lemma no_invented_headers_witness :
  let o := {| url := inl "http://h/p"; method := None;
              header := ARecord [("x-id", VNumber (Number "7"))];
              data := undefined; dataType := None |} in
  "x-id" ∈ own_header_names
  ∨ ∃ v, (("x-id", v) : string * scalar) ∈ caller_record (header o)
         ∧ isInvalidValue v = false ∧ "7" = ToString v.
Proof.
  intros o.
  eapply (no_invented_headers (host := Sample.host) Sample.env o); reflexivity.
Defined.

(** ** What the encoding looks at *)

Section Steering.
Context `{host : Host}.

(** X14.  The caller's headers do not steer the encoding: with another
    [header], the URL, the method, the transport and the body are the same,
    and so is the [content-type] of a POST of a record, which [dataType]
    alone decides. *)
Theorem headers_do_not_steer (env : Env) (o : THttpRequestOptions) (h : any)
    (req : ClientRequest) :
  prepare env o = Ok req →
  ∃ req', prepare env (with_header o h) = Ok req'
    ∧ body req' = body req ∧ uri req' = uri req ∧ href req' = href req
    ∧ req_method req' = req_method req ∧ transport req' = transport req
    ∧ console req' = console req
    ∧ (isRecord (data o) = true → method o = Some POST →
       req_headers req' !! "content-type" = req_headers req !! "content-type").
Proof.
  unfold prepare, with_header. simpl. destruct (to_URL (url o)) as [u|e]; [|done].
  destruct (data o) as [v|r]; simpl.
  - intros [= <-]. eexists. split; [reflexivity|]. simpl. by repeat split.
  - destruct (default GET (method o)) eqn:Hm; simpl.
    + intros [= <-]. eexists. split; [reflexivity|]. simpl.
      repeat (split; [done|]). intros _ Hpost. rewrite Hpost in Hm. done.
    + destruct (default DT_json (dataType o)); intros [= <-]; eexists;
        (split; [reflexivity|]); simpl; repeat (split; [done|]);
        intros _ _; by rewrite !lookup_insert_eq.
Qed.

(** X15.  [dataType] is looked at by a POST of a record only, and the
    clock and the random source by the [formdata] encoding only: in every
    other case the request built is the same whatever they are. *)
Theorem encoding_inputs (env env' : Env) (o : THttpRequestOptions) (dt : option DataType) :
  (default GET (method o) = GET ∨ isRecord (data o) = false →
   prepare env o = prepare env' (with_dataType o dt))
  ∧ (default DT_json (dataType o) ≠ DT_formdata → prepare env o = prepare env' o).
Proof.
  unfold prepare, with_dataType. simpl. destruct (to_URL (url o)) as [u|e]; [|done].
  destruct (data o) as [v|r]; simpl; [done|].
  destruct (default GET (method o)); simpl; [done|]. split.
  - intros [?|?]; done.
  - by destruct (default DT_json (dataType o)).
Qed.
End Steering.

Lemma headers_do_not_steer_witness :
  let o := {| url := inl "http://h/p"; method := Some POST;
              header := ARecord [("content-type", VString "multipart/form-data")];
              data := ARecord [("a", VString "b")]; dataType := Some DT_form |} in
  ∃ req req', prepare (host := Sample.host) Sample.env o = Ok req
    ∧ prepare (host := Sample.host) Sample.env (with_header o undefined) = Ok req'
    ∧ body req' = body req
    ∧ req_headers req' !! "content-type" = req_headers req !! "content-type".
Proof.
  intros o. eexists.
  edestruct (headers_do_not_steer (host := Sample.host) Sample.env o undefined)
    as (req' & Hreq' & Hbody & _ & _ & _ & _ & _ & Hct); [reflexivity|].
  exists req'. split; [reflexivity|]. split; [exact Hreq'|].
  split; [exact Hbody|]. by apply Hct.
Defined.

Lemma encoding_inputs_witness :
  let o := {| url := inl "http://h/p"; method := None; header := undefined;
              data := ARecord [("a", VString "b")]; dataType := Some DT_formdata |} in
  let env' := {| Date_now := 0; random36_fst := "0"; random36_snd := "0.zz" |} in
  prepare (host := Sample.host) Sample.env o
  = prepare (host := Sample.host) env' (with_dataType o (Some DT_form)).
Proof.
  intros o env'.
  destruct (encoding_inputs (host := Sample.host) Sample.env env' o (Some DT_form))
    as [Hget _].
  apply Hget. by left.
Defined.

(** ** More on query parameters *)

Lemma named_none_filter (k : string) (ps : list (string * string)) :
  named k ps = [] → filter (λ p, p.1 ≠ k) ps = ps.
Proof.
  unfold named. induction ps as [|[n x] ps IH]; [done|].
  destruct (decide (n = k)) as [->|Hne].
  - by rewrite filter_cons_True.
  - rewrite filter_cons_False by done. intros Hps.
    rewrite (filter_cons_True (λ p, p.1 ≠ k)) by done. by rewrite IH.
Qed.

(** Setting the value a name already has, alone, changes nothing. *)
Lemma params_set_same (k v : string) (ps : list (string * string)) :
  named k ps = [(k, v)] → params_set k v ps = ps.
Proof.
  induction ps as [|[n x] ps IH]; [done|]. simpl.
  destruct (decide (n = k)) as [->|Hne].
  - rewrite named_cons_eq. intros [= -> Hps]. by rewrite named_none_filter.
  - rewrite named_cons_ne by done. intros Hps. by rewrite IH.
Qed.

Lemma fold_set_param_fixpoint (r : TCommonRecord) (u : URL) :
  (∀ k v, (k, v) ∈ r → isInvalidValue v = false →
          named k (searchParams u) = [(k, ToString v)]) →
  fold_left set_param r u = u.
Proof.
  induction r as [|[k v] r IH]; intros Hu; [done|]. simpl.
  assert (set_param u (k, v) = u) as ->.
  { unfold set_param. simpl. destruct (isInvalidValue v) eqn:Hv; [done|].
    unfold searchParams_set. rewrite params_set_same; [by destruct u|].
    apply Hu; [by left|done]. }
  apply IH. intros k' v' Hin. apply Hu. by right.
Qed.

(** The pairs whose names are outside a list, in their order. *)
Lemma params_set_outside (names : list string) (k v : string)
    (ps : list (string * string)) :
  k ∈ names →
  filter (λ p, p.1 ∉ names) (params_set k v ps) = filter (λ p, p.1 ∉ names) ps.
Proof.
  intros Hk. induction ps as [|[n x] ps IH].
  - simpl. rewrite filter_cons_False; [done|]. simpl. tauto.
  - simpl. destruct (decide (n = k)) as [->|Hne].
    + rewrite !filter_cons_False by (simpl; tauto).
      clear IH. induction ps as [|[n' x'] ps IH]; [done|].
      destruct (decide (n' = k)) as [->|Hne].
      * rewrite (filter_cons_False (λ p, p.1 ≠ k)) by (simpl; tauto).
        rewrite IH. by rewrite filter_cons_False by (simpl; tauto).
      * rewrite (filter_cons_True (λ p, p.1 ≠ k)) by done.
        destruct (decide (n' ∈ names)) as [Hn|Hn].
        -- by rewrite !filter_cons_False by (simpl; tauto).
        -- rewrite !filter_cons_True by done. by rewrite IH.
    + destruct (decide (n ∈ names)) as [Hn|Hn].
      * by rewrite !filter_cons_False by (simpl; tauto).
      * rewrite !filter_cons_True by done. by rewrite IH.
Qed.

Lemma set_names_elem (r : TCommonRecord) (k : string) (v : scalar) :
  (k, v) ∈ r → isInvalidValue v = false → k ∈ set_names r.
Proof.
  intros Hin Hv. unfold set_names. apply list_elem_of_fmap. exists (k, v).
  split; [done|]. by apply list_elem_of_filter.
Qed.

Lemma fold_set_param_untouched (r0 r : TCommonRecord) (u : URL) :
  (∀ e, e ∈ r → e ∈ r0) →
  untouched r0 (searchParams (fold_left set_param r u)) = untouched r0 (searchParams u).
Proof.
  revert u. induction r as [|[k v] r IH]; intros u Hsub; [done|].
  simpl. rewrite IH by (intros e He; apply Hsub; by right).
  unfold set_param. simpl. destruct (isInvalidValue v) eqn:Hv; [done|].
  simpl. unfold untouched. apply params_set_outside.
  apply (set_names_elem r0 k v); [|done]. apply Hsub. by left.
Qed.

Section QueryMore.
Context `{host : Host}.

(** X16.  Setting the data on a URL is idempotent: a GET on the URL that a
    GET with the same data produced leaves that URL as it is. *)
Theorem get_query_idempotent (env : Env) (o o' : THttpRequestOptions) (r : TCommonRecord)
    (req : ClientRequest) :
  default GET (method o) = GET → data o = ARecord r → wf_record r →
  prepare env o = Ok req →
  url o' = inr (uri req) → default GET (method o') = GET → data o' = ARecord r →
  ∃ req', prepare env o' = Ok req' ∧ uri req' = uri req ∧ href req' = href req.
Proof.
  intros Hm Hd Hwf Hreq Hurl' Hm' Hd'.
  unfold prepare in Hreq. destruct (to_URL (url o)) as [u|e]; [|done].
  rewrite Hm, Hd in Hreq. simpl in Hreq. injection Hreq as <-. simpl in *.
  unfold prepare. rewrite Hurl', Hm', Hd'. simpl. eexists. split; [reflexivity|].
  simpl. rewrite fold_set_param_fixpoint; [done|].
  intros k v Hin Hv. by apply fold_set_param_set.
Qed.

(** X17.  The pairs of the caller's query whose names the data do not set
    are all kept, with their values and in their order. *)
Theorem get_query_keeps_the_rest (env : Env) (o : THttpRequestOptions) (r : TCommonRecord)
    (u : URL) :
  to_URL (url o) = Ok u → default GET (method o) = GET → data o = ARecord r →
  ∃ req, prepare env o = Ok req
    ∧ untouched r (searchParams (uri req)) = untouched r (searchParams u).
Proof.
  intros Hu Hm Hd. unfold prepare. rewrite Hu, Hm, Hd. simpl.
  eexists. split; [reflexivity|]. simpl. by apply fold_set_param_untouched.
Qed.
End QueryMore.

Lemma get_query_idempotent_witness :
  let r := [("a", VNumber (Number "1")); ("b", VNull)] in
  let o := {| url := inl "http://h/p?a=0&c=3&a=2"; method := None; header := undefined;
              data := ARecord r; dataType := None |} in
  let u1 := {| protocol := "http:"; remainder := "//h/p";
               searchParams := [("a", "1"); ("c", "3")] |} in
  let o' := {| url := inr u1; method := Some GET; header := undefined;
               data := ARecord r; dataType := None |} in
  ∃ req', prepare (host := Sample.host) Sample.env o' = Ok req'
          ∧ uri req' = u1 ∧ href req' = "http://h/p?a=1&c=3".
Proof.
  intros r o u1 o'.
  assert (wf_record r) as Hwf by (apply (bool_decide_unpack _); vm_compute; exact I).
  edestruct (get_query_idempotent (host := Sample.host) Sample.env o o' r)
    as (req' & Hreq' & Huri & Hhref); [reflexivity|reflexivity|exact Hwf|reflexivity| |reflexivity|reflexivity|].
  - reflexivity.
  - exists req'. split; [exact Hreq'|]. split; [exact Huri|exact Hhref].
Defined.

Lemma get_query_keeps_the_rest_witness :
  let r := [("a", VNumber (Number "1")); ("b", VNull)] in
  let o := {| url := inl "http://h/p?x=1&a=0&b=5&x=2&a=9"; method := None;
              header := undefined; data := ARecord r; dataType := None |} in
  ∃ req, prepare (host := Sample.host) Sample.env o = Ok req
    ∧ untouched r (searchParams (uri req)) = [("x", "1"); ("b", "5"); ("x", "2")].
Proof.
  intros r o.
  destruct (get_query_keeps_the_rest (host := Sample.host) Sample.env o r
              {| protocol := "http:"; remainder := "//h/p";
                 searchParams := [("x", "1"); ("a", "0"); ("b", "5"); ("x", "2"); ("a", "9")] |}
              eq_refl eq_refl eq_refl) as (req & Hreq & Hrest).
  exists req. split; [exact Hreq|]. rewrite Hrest. reflexivity.
Defined.

(** ** Reading the bodies back *)

Lemma percent_decode_char (c : ascii) (t : string) :
  percent_decode ((if uri_unreserved c then char c else percent_encode c) ++ t)
  = String c (percent_decode t).
Proof. destruct c as [[] [] [] [] [] [] [] []]; reflexivity. Qed.

Lemma percent_decode_encoded (s t : string) :
  percent_decode (encodeURIComponent s ++ t) = s ++ percent_decode t.
Proof.
  induction s as [|c s IH]; [done|]. cbn [encodeURIComponent].
  rewrite string_app_assoc, percent_decode_char, IH. done.
Qed.

(** [encodeURIComponent] writes neither [&] nor [=]. *)
Lemma encodeURIComponent_separators (s : string) :
  no_char "&" (encodeURIComponent s) = true ∧ no_char "=" (encodeURIComponent s) = true.
Proof.
  induction s as [|c s [IH1 IH2]]; [done|]. cbn [encodeURIComponent].
  unfold no_char in *. rewrite !forallb_string_app, IH1, IH2.
  destruct c as [[] [] [] [] [] [] [] []]; by vm_compute.
Qed.

Lemma split_on_plain (sep : ascii) (h : string) :
  no_char sep h = true → Sample.split_on sep h = [h].
Proof.
  induction h as [|c h IH]; [done|]. unfold no_char. simpl.
  intros [Hc Hh]%andb_prop. apply negb_true_iff in Hc. unfold is_char in Hc.
  rewrite Ascii.eqb_sym, Hc. by rewrite IH.
Qed.

Lemma split_on_head (sep : ascii) (h t : string) :
  no_char sep h = true →
  Sample.split_on sep (h ++ String sep t) = h :: Sample.split_on sep t.
Proof.
  induction h as [|c h IH].
  - intros _. change (EmptyString ++ String sep t) with (String sep t). simpl.
    by rewrite Ascii.eqb_refl.
  - unfold no_char. cbn [forallb_string]. intros [Hc Hh]%andb_prop.
    apply negb_true_iff in Hc. unfold is_char in Hc. rewrite string_app_cons. simpl.
    rewrite Ascii.eqb_sym, Hc. by rewrite IH.
Qed.

Lemma cut_head (sep : ascii) (h t : string) :
  no_char sep h = true → Sample.cut sep (h ++ String sep t) = (h, Some t).
Proof.
  induction h as [|c h IH].
  - intros _. change (EmptyString ++ String sep t) with (String sep t). simpl.
    by rewrite Ascii.eqb_refl.
  - unfold no_char. cbn [forallb_string]. intros [Hc Hh]%andb_prop.
    apply negb_true_iff in Hc. unfold is_char in Hc. rewrite string_app_cons. simpl.
    rewrite Ascii.eqb_sym, Hc. by rewrite IH.
Qed.

Lemma split_on_join (xs : list string) :
  Forall (λ x, no_char "&" x = true) xs → xs ≠ [] →
  Sample.split_on "&" (join "&" xs) = xs.
Proof.
  induction 1 as [|x xs Hx Hxs IH]; [done|]. intros _.
  rewrite join_amp_cons. destruct xs as [|y ys].
  - rewrite string_app_nil_r. by apply split_on_plain.
  - change ("&" ++ ?t) with (String "&" t). rewrite split_on_head by done.
    by rewrite IH.
Qed.

Lemma form_pair_no_ampersand (e : string * scalar) : no_char "&" (form_pair e) = true.
Proof.
  unfold form_pair, no_char. rewrite !forallb_string_app.
  destruct (encodeURIComponent_separators e.1) as [H1 _].
  destruct (encodeURIComponent_separators (ToString e.2)) as [H2 _].
  unfold no_char in H1, H2. by rewrite H1, H2.
Qed.

Lemma read_pair_form_pair (e : string * scalar) :
  read_pair (form_pair e) = (e.1, ToString e.2).
Proof.
  unfold read_pair, form_pair.
  change ("=" ++ ?t) with (String "=" t).
  rewrite cut_head by apply encodeURIComponent_separators. simpl.
  rewrite <- (string_app_nil_r (encodeURIComponent e.1)).
  rewrite <- (string_app_nil_r (encodeURIComponent (ToString e.2))).
  by rewrite !percent_decode_encoded, !string_app_nil_r.
Qed.

Lemma read_form_pairs (r : TCommonRecord) :
  read_form (join "&" (map form_pair r)) = entries_as_strings r.
Proof.
  destruct r as [|e r]; [done|].
  assert (∃ c t, join "&" (map form_pair (e :: r)) = String c t) as (c & t & Hbody).
  { cbn [map]. rewrite join_amp_cons. unfold form_pair at 1.
    rewrite !string_app_assoc. change ("=" ++ ?x) with (String "=" x).
    destruct (encodeURIComponent e.1); by eexists _, _. }
  unfold read_form. rewrite Hbody, <- Hbody. rewrite split_on_join; [|
    apply Forall_forall; intros x Hx; apply list_elem_of_In in Hx;
    apply in_map_iff in Hx as [e' [<- _]]; apply form_pair_no_ampersand|done].
  unfold entries_as_strings. rewrite map_map. apply map_ext.
  intros e'. apply read_pair_form_pair.
Qed.

Section ReadingBack.
Context `{host : Host}.

(** X18.  A [form] body can be read back: cutting it at [&], each pair at
    its first [=], and percent-decoding gives the keys and the string forms
    of the values, in the order of the entries; no key or value can forge a
    separator. *)
Theorem form_body_reads_back (env : Env) (o : THttpRequestOptions) (r : TCommonRecord)
    (u : URL) :
  to_URL (url o) = Ok u → method o = Some POST →
  dataType o = Some DT_form → data o = ARecord r → wf_record r →
  ∃ req, prepare env o = Ok req
    ∧ read_form (string_of_list_byte (body req)) = entries_as_strings r.
Proof.
  intros Hu Hm Hdt Hd Hwf. eexists. split.
  { unfold prepare. rewrite Hu, Hm, Hdt, Hd. simpl. reflexivity. }
  simpl. unfold Buffer_from. rewrite string_of_list_byte_of_string.
  rewrite form_body_entries by done. apply read_form_pairs.
Qed.
End ReadingBack.

Lemma form_body_reads_back_witness :
  let r := [("a b", VString "c&d=e"); ("n", VNumber (Number "1")); ("z", VNull)] in
  let o := {| url := inl "http://h/p"; method := Some POST; header := undefined;
              data := ARecord r; dataType := Some DT_form |} in
  ∃ req, prepare (host := Sample.host) Sample.env o = Ok req
    ∧ read_form (string_of_list_byte (body req))
      = [("a b", "c&d=e"); ("n", "1"); ("z", "null")].
Proof.
  intros r o.
  assert (wf_record r) as Hwf by (apply (bool_decide_unpack _); vm_compute; exact I).
  destruct (form_body_reads_back (host := Sample.host) Sample.env o r sample_url
              eq_refl eq_refl eq_refl eq_refl Hwf) as (req & Hreq & Hread).
  exists req. split; [exact Hreq|exact Hread].
Defined.

(** ** The multipart body is not escaped *)

(** X19.  The names and values of a multipart body are written as they
    are: a value that holds the text of a part separator yields the very
    body of a record with one more field, so that the body does not tell
    the two records apart. *)
Theorem formdata_values_not_escaped (boundary k1 v1 k2 v2 : string) (rest : TCommonRecord) :
  let forged :=
    v1 ++ char newline ++ "--" ++ boundary ++ char newline
    ++ "Content-Disposition: form-data; name=" ++ char dquote ++ k2 ++ char dquote
    ++ char newline ++ char newline ++ v2 in
  formdata_body boundary ((k1, VString forged) :: rest)
  = formdata_body boundary ((k1, VString v1) :: (k2, VString v2) :: rest)
  ∧ (k1, VString forged) :: rest ≠ (k1, VString v1) :: (k2, VString v2) :: rest.
Proof.
  intros forged. split.
  - unfold formdata_body. cbn [map]. rewrite !join_empty_cons.
    unfold formdata_part, forged. simpl. by rewrite !string_app_assoc.
  - intros Heq. apply (f_equal length) in Heq. simpl in Heq. lia.
Qed.

(** ** The alphabet of the boundary *)

Lemma digit36_is_base36 (n : N) : is_base36 (digit36 n) = true.
Proof.
  unfold digit36, digit_of. generalize (N.to_nat n). intros m.
  do 36 (destruct m as [|m]; [reflexivity|]). reflexivity.
Qed.

Lemma to_base36_alphabet (fuel : nat) (n : N) (acc : string) :
  forallb_string is_base36 acc = true →
  forallb_string is_base36 (to_base36 fuel n acc) = true.
Proof.
  revert n acc. induction fuel as [|fuel IH]; intros n acc Hacc; [done|].
  cbn [to_base36]. destruct (n <? 36)%N.
  - simpl. by rewrite digit36_is_base36.
  - apply IH. simpl. by rewrite digit36_is_base36.
Qed.

Lemma to_base36_nonempty (fuel : nat) (n : N) (acc : string) :
  nonempty acc = true ∨ fuel ≠ O → nonempty (to_base36 fuel n acc) = true.
Proof.
  revert n acc. induction fuel as [|fuel IH]; intros n acc Hne.
  - destruct Hne as [Hne|Hne]; done.
  - cbn [to_base36]. destruct (n <? 36)%N; [done|]. apply IH. by left.
Qed.

(** X20.  With a clock that is not before the epoch and random renderings
    that are base-36 fractions, the boundary is [AnyConn] followed by
    base-36 digits only, the first of them being those of the timestamp: it
    holds no quote, no semicolon and no white space. *)
Theorem boundary_alphabet (env : Env) (f1 f2 : string) :
  (0 ≤ Date_now env)%Z →
  random36_fst env = "0." ++ f1 → random36_snd env = "0." ++ f2 →
  forallb_string is_base36 f1 = true → forallb_string is_base36 f2 = true →
  ∃ digits, make_boundary env = "AnyConn" ++ digits
            ∧ forallb_string is_base36 digits = true
            ∧ nonempty digits = true.
Proof.
  intros Hnow Hr1 Hr2 Hf1 Hf2. unfold make_boundary. rewrite Hr1, Hr2.
  exists (toString36 (Date_now env) ++ f1 ++ f2). split; [done|].
  assert (forallb_string is_base36 (toString36 (Date_now env)) = true
          ∧ nonempty (toString36 (Date_now env)) = true) as [Hs Hn].
  { destruct (Date_now env) as [|p|p]; [done| |lia]. unfold toString36. split.
    - by apply to_base36_alphabet.
    - apply to_base36_nonempty. by right. }
  split.
  - by rewrite !forallb_string_app, Hs, Hf1, Hf2.
  - destruct (toString36 (Date_now env)); done.
Qed.

Lemma boundary_alphabet_witness :
  ∃ digits, make_boundary Sample.env = "AnyConn" ++ digits
            ∧ forallb_string is_base36 digits = true
            ∧ nonempty digits = true.
Proof.
  apply (boundary_alphabet Sample.env "4fzyo82mvyr" "k2j8s1x9qd");
    [vm_compute; discriminate|reflexivity..].
Defined.

(** ** Runs of the sample host *)

Lemma promise_settles_once_witness :
  promise (run (host := Sample.host) (request (host := Sample.host) Sample.env sample_get)
             ([ReqError sample_error]
              ++ [Response (sample_response (Some 200%Z) None); ResData (Buffer_from "ok");
                  ResEnd])%list)
  = Rejected sample_error.
Proof.
  rewrite (promise_settles_once (host := Sample.host)); [reflexivity|].
  vm_compute. discriminate.
Defined.

Lemma request_error_rejects_witness :
  promise (run (host := Sample.host) (request (host := Sample.host) Sample.env sample_post)
             [WriteDone None; ReqError sample_error; ResEnd])
  = Rejected sample_error.
Proof.
  eapply (request_error_rejects (host := Sample.host) Sample.env sample_post sample_post_request
            [WriteDone None] [ResEnd]); [reflexivity|].
  repeat constructor.
Defined.

Lemma response_error_rejects_witness :
  promise (run (host := Sample.host) (request (host := Sample.host) Sample.env sample_get)
             [Response (sample_response (Some 200%Z) None); ResData (Buffer_from "par");
              ResError sample_error; ResEnd])
  = Rejected sample_error.
Proof.
  eapply (response_error_rejects (host := Sample.host) Sample.env sample_get sample_get_request
            [] [ResEnd] _ [Buffer_from "par"]); [reflexivity|constructor].
Defined.



Lemma invalid_url_rejects_witness :
  let o := {| url := inl "not a url"; method := None; header := undefined;
              data := undefined; dataType := None |} in
  promise (run (host := Sample.host) (request (host := Sample.host) Sample.env o)
             [Response (sample_response (Some 200%Z) None); ResEnd])
  = Rejected (Sample.TypeError "Invalid URL").
Proof.
  intros o.
  destruct (invalid_url_rejects (host := Sample.host) Sample.env o "not a url"
              (Sample.TypeError "Invalid URL")
              [Response (sample_response (Some 200%Z) None); ResEnd] eq_refl eq_refl)
    as (Hp & _ & Hrun).
  rewrite Hrun. exact Hp.
Defined.

Lemma unknown_charset_not_rejected_witness :
  let res := sample_response (Some 200%Z) (Some "text/html; charset=gbk") in
  let x := run (host := Sample.host) (request (host := Sample.host) Sample.env sample_get)
             [Response res; ResData (Buffer_from "<p>"); ResEnd] in
  promise x = Pending ∧ uncaught x = [Sample.TypeError "Unknown encoding: gbk"].
Proof.
  intros res x.
  eapply (unknown_charset_not_rejected (host := Sample.host) Sample.env sample_get sample_get_request []
            res [Buffer_from "<p>"]); [reflexivity|constructor|by right|reflexivity].
Defined.

Lemma chunking_is_irrelevant_witness :
  let res := sample_response (Some 200%Z) (Some "text/plain") in
  promise (run (host := Sample.host) (request (host := Sample.host) Sample.env sample_get)
             [Response res; ResData (Buffer_from "he"); ResData (Buffer_from "llo"); ResEnd])
  = promise (run (host := Sample.host) (request (host := Sample.host) Sample.env sample_get)
               [Response res; ResData (Buffer_from "hello"); ResEnd]).
Proof.
  intros res.
  edestruct (chunking_is_irrelevant (host := Sample.host) Sample.env sample_get sample_get_request [] res
               [Buffer_from "he"; Buffer_from "llo"] [Buffer_from "hello"])
    as [Hp _]; [reflexivity|constructor|reflexivity|].
  exact Hp.
Defined.
